(** * Verification model of [planA_scrapper_danswer.py]

    A shallow embedding of the crawler [WebConnector], its link extractor
    [get_internal_links], the PDF reader [read_pdf_file] and the text
    normalizer [format_document_soup].  Python strings are modelled as
    ASCII strings ([Stdlib.Strings.String]); Python lists as Rocq lists in
    the same order (the last element is the one [list.pop()] removes). *)

From Stdlib Require Import String Ascii List ZArith Bool Lia.
Import ListNotations.
Open Scope string_scope.
Set Warnings "-register-all".

(** ** Python string primitives (ASCII fragment) *)
Module Py.

Definition chr (n : nat) : string := String (ascii_of_nat n) EmptyString.
Definition NL : string := chr 10.
Definition CR : string := chr 13.
Definition TAB : string := chr 9.

Definition is_nl (c : ascii) : bool :=
  Nat.eqb (nat_of_ascii c) 10 || Nat.eqb (nat_of_ascii c) 13.

(** [str.isspace] on one ASCII character. *)
Definition isspace (c : ascii) : bool :=
  let n := nat_of_ascii c in
  (Nat.leb 9 n && Nat.leb n 13) || (Nat.leb 28 n && Nat.leb n 31) || Nat.eqb n 32.

Definition is_sp (c : ascii) : bool := Nat.eqb (nat_of_ascii c) 32.

Fixpoint lstrip (s : string) : string :=
  match s with
  | EmptyString => EmptyString
  | String c r => if isspace c then lstrip r else s
  end.

Fixpoint rev_str (s : string) : string :=
  match s with
  | EmptyString => EmptyString
  | String c r => rev_str r ++ String c EmptyString
  end.

(** [str.strip()] *)
Definition strip (s : string) : string := rev_str (lstrip (rev_str (lstrip s))).

(** [s.replace(chr a, chr b)] for single characters *)
Fixpoint replace_char (a b : ascii) (s : string) : string :=
  match s with
  | EmptyString => EmptyString
  | String c r =>
      String (if Ascii.eqb c a then b else c) (replace_char a b r)
  end.

(** [x in s] for strings: substring test *)
Fixpoint contains (needle s : string) : bool :=
  match s with
  | EmptyString => String.prefix needle s
  | String _ r => String.prefix needle s || contains needle r
  end.

(** [s.split(sep)[0]] for a one-character separator *)
Fixpoint split_first (sep : ascii) (s : string) : string :=
  match s with
  | EmptyString => EmptyString
  | String c r => if Ascii.eqb c sep then EmptyString else String c (split_first sep r)
  end.

(** [s.split(sep)[-1]] for a one-character separator *)
Fixpoint split_last_aux (sep : ascii) (seg s : string) : string :=
  match s with
  | EmptyString => seg
  | String c r =>
      if Ascii.eqb c sep then split_last_aux sep EmptyString r
      else split_last_aux sep (seg ++ String c EmptyString) r
  end.
Definition split_last (sep : ascii) (s : string) : string :=
  split_last_aux sep EmptyString s.

Definition startswith_space (s : string) : bool :=
  match s with String c _ => is_sp c | EmptyString => false end.

(** [s[1:]] *)
Definition tail (s : string) : string :=
  match s with String _ r => r | EmptyString => EmptyString end.

Definition first_is_space (s : string) : bool :=
  match s with String c _ => isspace c | EmptyString => false end.

Fixpoint last_is_space (s : string) : bool :=
  match s with
  | EmptyString => false
  | String c EmptyString => isspace c
  | String _ r => last_is_space r
  end.

Fixpoint spaces (n : nat) : string :=
  match n with O => EmptyString | S k => String " "%char (spaces k) end.

Definition is_alpha (c : ascii) : bool :=
  let n := nat_of_ascii c in (Nat.leb 65 n && Nat.leb n 90) || (Nat.leb 97 n && Nat.leb n 122).

End Py.

(** ** Text normalizer: [strip_excessive_newlines_and_spaces],
    [strip_newlines], [format_document_soup] *)
Module Normalizer.
Import Py.

(** [re.sub(r" +", " ", s)] *)
Fixpoint collapse_spaces (in_run : bool) (s : string) : string :=
  match s with
  | EmptyString => EmptyString
  | String c r =>
      if is_sp c then
        (if in_run then collapse_spaces true r else String c (collapse_spaces true r))
      else String c (collapse_spaces false r)
  end.

(** [re.sub(r" +[\n\r]", "\n", s)]: [pending] counts the spaces of the current
    run, emitted only if no newline character follows them. *)
Fixpoint trailing_spaces (pending : nat) (s : string) : string :=
  match s with
  | EmptyString => spaces pending
  | String c r =>
      if is_sp c then trailing_spaces (S pending) r
      else if is_nl c then
        match pending with
        | O => String c (trailing_spaces O r)
        | S _ => NL ++ trailing_spaces O r
        end
      else spaces pending ++ String c (trailing_spaces O r)
  end.

(** [re.sub(r"[\n\r]+", rep, s)] *)
Fixpoint sub_newline_runs (rep : string) (in_run : bool) (s : string) : string :=
  match s with
  | EmptyString => EmptyString
  | String c r =>
      if is_nl c then
        (if in_run then sub_newline_runs rep true r else rep ++ sub_newline_runs rep true r)
      else String c (sub_newline_runs rep false r)
  end.

Definition strip_excessive_newlines_and_spaces (document : string) : string :=
  let document := collapse_spaces false document in
  let document := trailing_spaces O document in
  let document := sub_newline_runs NL false document in
  strip document.

Definition strip_newlines (document : string) : string :=
  sub_newline_runs " " false document.

(** The parsed soup: [NavigableString], its [Comment] and [Doctype]
    subclasses, and [Tag] with its name and its children. *)
Inductive node : Type :=
| NString (s : string)
| NComment (s : string)
| NDoctype (s : string)
| NTag (name : string) (children : list node).

(** [Tag.descendants]: pre-order, the tag itself excluded. *)
Fixpoint descendants (n : node) : list node :=
  match n with
  | NTag _ cs =>
      (fix go (cs : list node) : list node :=
         match cs with
         | [] => []
         | c :: cs' => c :: (descendants c ++ go cs')%list
         end) cs
  | _ => []
  end.

Record fstate : Type := mkF {
  text : string;
  list_element_start : bool;
  verbatim_output : Z;
  in_table : bool;
  last_added_newline : bool
}.

Definition init_fstate : fstate := mkF EmptyString false 0 false false.

Definition name_in (n : string) (l : list string) : bool :=
  existsb (String.eqb n) l.

(** One iteration of the [for e in document.descendants] loop. *)
Definition fstep (table_cell_separator : string) (st : fstate) (e : node) : fstate :=
  let v := (verbatim_output st - 1)%Z in
  let txt := text st in
  let les := list_element_start st in
  let tab := in_table st in
  let lan := last_added_newline st in
  match e with
  | NComment _ | NDoctype _ => mkF txt les v tab lan
  | NString s =>
      let element_text :=
        if tab then strip (replace_char (ascii_of_nat 10) " "%char s) else s in
      let '(element_text, lan) :=
        if lan && startswith_space element_text
        then (Py.tail element_text, false) else (element_text, lan) in
      if String.eqb element_text EmptyString then mkF txt les v tab lan
      else
        let content_to_add :=
          if (0 <? v)%Z then element_text else strip_newlines element_text in
        let txt :=
          if (negb (String.eqb txt EmptyString) && negb (last_is_space txt))
             && (negb (String.eqb content_to_add EmptyString)
                 && negb (first_is_space content_to_add))
          then txt ++ " " else txt in
        mkF (txt ++ content_to_add) false v tab lan
  | NTag name cs =>
      if String.eqb name "table" then mkF txt les v true lan
      else if String.eqb name "tr" && tab then mkF (txt ++ NL) les v tab lan
      else if name_in name ["td"; "th"] && tab then
        mkF (txt ++ table_cell_separator) les v tab lan
      else if String.eqb name "/table" then mkF txt les v false lan
      else if tab then mkF txt les v tab lan
      else if name_in name ["p"; "div"] then
        (if negb les then mkF (txt ++ NL) les v tab lan else mkF txt les v tab lan)
      else if name_in name ["h1"; "h2"; "h3"; "h4"] then mkF (txt ++ NL) false v tab true
      else if String.eqb name "br" then mkF (txt ++ NL) false v tab true
      else if String.eqb name "li" then mkF (txt ++ NL ++ "- ") true v tab lan
      else if String.eqb name "pre" then
        (if (v <=? 0)%Z then mkF txt les (Z.of_nat (length cs)) tab lan
         else mkF txt les v tab lan)
      else mkF txt les v tab lan
  end.

Definition walk (sep : string) (l : list node) : fstate :=
  fold_left (fstep sep) l init_fstate.

Definition format_document_soup (document : node) (table_cell_separator : string)
  : string :=
  strip_excessive_newlines_and_spaces
    (text (walk table_cell_separator (descendants document))).

(** The tree [html.parser] builds for the C4 input (no [tbody] is inserted). *)
Definition table_doc : node :=
  NTag "[document]"
    [NTag "table"
       [NTag "tr" [NTag "td" [NString "A"]; NTag "td" [NString "B"]];
        NTag "tr" [NTag "td" [NString "C"]; NTag "td" [NString "D"]]]].

(** [<pre>a\nb</pre>] *)
Definition pre_doc : node :=
  NTag "[document]" [NTag "pre" [NString ("a" ++ NL ++ "b")]].


(** Tag names as [html.parser] produces them: they begin with an ASCII
    letter (its [tagfind_tolerant] pattern). *)
Definition parser_name (n : string) : bool :=
  match n with String c _ => is_alpha c | EmptyString => false end.

Definition name_ok (e : node) : bool :=
  match e with NTag n _ => parser_name n | _ => true end.

Definition set_table (b : bool) (st : fstate) : fstate :=
  mkF (text st) (list_element_start st) (verbatim_output st) b (last_added_newline st).

(** What one node does while table mode is on: [td]/[th] append the cell
    separator, [tr] a newline, every other tag (the [p]/[div], heading, [br],
    [li] and [pre] rules included) and comments only count down the verbatim
    counter, and a text node is handled as outside a table after its newlines
    are turned into spaces and it is stripped. *)
Definition table_mode_rules (sep : string) (st : fstate) (e : node) : Prop :=
  let v := (verbatim_output st - 1)%Z in
  let same := mkF (text st) (list_element_start st) v true (last_added_newline st) in
  match e with
  | NTag n _ =>
      if name_in n ["td"; "th"] then
        fstep sep st e = mkF (text st ++ sep) (list_element_start st) v true
                             (last_added_newline st)
      else if String.eqb n "tr" then
        fstep sep st e = mkF (text st ++ NL) (list_element_start st) v true
                             (last_added_newline st)
      else fstep sep st e = same
  | NString s =>
      fstep sep st e
      = set_table true (fstep sep (set_table false st)
                          (NString (strip (replace_char (ascii_of_nat 10) " "%char s))))
  | _ => fstep sep st e = same
  end.

(** A table followed by a paragraph. *)
Definition table_then_p : node :=
  NTag "[document]"
    [NTag "table" [NTag "tr" [NTag "td" [NString "A"]]]; NTag "p" [NString "x"]].

End Normalizer.

(** ** [urllib.parse] fragment and [get_internal_links] *)
Module Links.
Import Py.

Definition is_digit (c : ascii) : bool :=
  let n := nat_of_ascii c in Nat.leb 48 n && Nat.leb n 57.
(** [scheme_chars]: letters, digits and [+-.] *)
Definition is_scheme_char (c : ascii) : bool :=
  is_alpha c || is_digit c || Ascii.eqb c "+" || Ascii.eqb c "-" || Ascii.eqb c ".".
Definition lower (c : ascii) : ascii :=
  let n := nat_of_ascii c in
  if Nat.leb 65 n && Nat.leb n 90 then ascii_of_nat (n + 32) else c.
Fixpoint lower_str (s : string) : string :=
  match s with EmptyString => EmptyString | String c r => String (lower c) (lower_str r) end.

(** [url.lstrip(_WHATWG_C0_CONTROL_OR_SPACE)] *)
Fixpoint lstrip_c0 (s : string) : string :=
  match s with
  | EmptyString => EmptyString
  | String c r => if Nat.leb (nat_of_ascii c) 32 then lstrip_c0 r else s
  end.
(** removal of [_UNSAFE_URL_BYTES_TO_REMOVE] (tab, CR, LF) *)
Fixpoint remove_unsafe (s : string) : string :=
  match s with
  | EmptyString => EmptyString
  | String c r =>
      let n := nat_of_ascii c in
      if Nat.eqb n 9 || Nat.eqb n 10 || Nat.eqb n 13 then remove_unsafe r
      else String c (remove_unsafe r)
  end.

(** [url.find(':')] splitting: [Some (url[:i], url[i+1:])] *)
Fixpoint split_colon (s : string) : option (string * string) :=
  match s with
  | EmptyString => None
  | String c r =>
      if Ascii.eqb c ":" then Some (EmptyString, r)
      else match split_colon r with
           | Some (a, b) => Some (String c a, b)
           | None => None
           end
  end.

Fixpoint all_chars (p : ascii -> bool) (s : string) : bool :=
  match s with EmptyString => true | String c r => p c && all_chars p r end.

(** [_splitnetloc(url, 2)] on the part after [//]: up to the first [/?#] *)
Fixpoint netloc_part (s : string) : string :=
  match s with
  | EmptyString => EmptyString
  | String c r =>
      if Ascii.eqb c "/" || Ascii.eqb c "?" || Ascii.eqb c "#" then EmptyString
      else String c (netloc_part r)
  end.

Definition has_char (a : ascii) (s : string) : bool :=
  negb (all_chars (fun c => negb (Ascii.eqb c a)) s).

(** [urlsplit(url)] restricted to its [(scheme, netloc)] components; [None]
    is the [ValueError("Invalid IPv6 URL")] of unbalanced brackets. *)
Definition urlsplit (url : string) : option (string * string) :=
  let url := remove_unsafe (lstrip_c0 url) in
  let '(scheme, rest) :=
    match url, split_colon url with
    | String c0 _, Some (pre, post) =>
        if negb (String.eqb pre EmptyString) && is_alpha c0
           && all_chars is_scheme_char pre
        then (lower_str pre, post) else (EmptyString, url)
    | _, _ => (EmptyString, url)
    end in
  match rest with
  | String "/" (String "/" r) =>
      let netloc := netloc_part r in
      if (has_char "[" netloc && negb (has_char "]" netloc))
         || (has_char "]" netloc && negb (has_char "[" netloc))
      then None else Some (scheme, netloc)
  | _ => Some (scheme, EmptyString)
  end.

Definition netloc_of (url : string) : option string :=
  option_map snd (urlsplit url).

(** [is_valid_url]: [all([scheme, netloc])], [False] on [ValueError] *)
Definition is_valid_url (url : string) : bool :=
  match urlsplit url with
  | Some (scheme, netloc) =>
      negb (String.eqb scheme EmptyString) && negb (String.eqb netloc EmptyString)
  | None => false
  end.

Section Extractor.
(** RFC 3986 reference resolution of [urljoin] past its two early returns;
    [None] is a [ValueError] raised by the library. *)
Variable urljoin_resolve : string -> string -> option string.

Definition urljoin (base url : string) : option string :=
  if String.eqb base EmptyString then Some url
  else if String.eqb url EmptyString then Some base
  else urljoin_resolve base url.

(** [set.add] *)
Definition set_add (x : string) (l : list string) : list string :=
  if existsb (String.eqb x) l then l else (l ++ [x])%list.

(** The href of one anchor: [href = link.get("href")] and the code up to the
    scope test; [None] outside means an exception escapes. *)
Definition candidate (should_ignore_pound : bool) (url href : string)
  : option string :=
  let href := if should_ignore_pound && has_char "#" href
              then split_first "#" href else href in
  if negb (is_valid_url href) then urljoin url href else Some href.

(** [urlparse(href).netloc == urlparse(url).netloc and base_url in href] *)
Definition keep (base_url url href : string) : option bool :=
  match netloc_of href, netloc_of url with
  | Some n1, Some n2 => Some (String.eqb n1 n2 && contains base_url href)
  | _, _ => None
  end.

Fixpoint links_loop (base_url url : string) (should_ignore_pound : bool)
  (anchors : list (option string)) (acc : list string) : option (list string) :=
  match anchors with
  | [] => Some acc
  | a :: rest =>
      match a with
      | None | Some EmptyString => links_loop base_url url should_ignore_pound rest acc
      | Some href =>
          match candidate should_ignore_pound url href with
          | None => None
          | Some href =>
              match keep base_url url href with
              | None => None
              | Some true =>
                  links_loop base_url url should_ignore_pound rest (set_add href acc)
              | Some false => links_loop base_url url should_ignore_pound rest acc
              end
          end
      end
  end.

(** [get_internal_links base_url url soup should_ignore_pound]; the soup is
    given by its [<a>] elements' [href] attributes in document order, and the
    returned set by its elements in insertion order. *)
Definition get_internal_links (base_url url : string) (anchors : list (option string))
  (should_ignore_pound : bool) : option (list string) :=
  links_loop base_url url should_ignore_pound anchors [].

End Extractor.
End Links.

(** ** [read_pdf_file] over the observable behaviour of [pypdf.PdfReader] *)
Module Pdf.
Import Py.

(** What [pypdf] exposes of a parsed PDF: whether it is encrypted, which
    passwords [verify] (user or owner password), which raise in [decrypt],
    the text of its pages and whether text extraction raises. *)
Record pdf_doc : Type := mkPdf {
  is_encrypted : bool;
  verify : string -> bool;
  decrypt_raises : string -> bool;
  page_texts : list string;
  extract_fails : bool
}.

(** A reader and whether its content is decrypted.  [PdfReader(file)]
    itself tries the empty password on an encrypted file. *)
Record reader : Type := mkReader { rdoc : pdf_doc; decrypted : bool }.

Definition open_reader (d : pdf_doc) : reader :=
  mkReader d (negb (is_encrypted d) || verify d EmptyString).

(** [reader.decrypt(p) != 0]; [None] when [decrypt] raises *)
Definition decrypt (r : reader) (p : string) : option (bool * reader) :=
  if decrypt_raises (rdoc r) p then None
  else let ok := verify (rdoc r) p in Some (ok, mkReader (rdoc r) (decrypted r || ok)).

(** [[page.extract_text() for page in reader.pages]]; reading an encrypted
    file that is not decrypted raises [FileNotDecryptedError]. *)
Definition extract_pages (r : reader) : option (list string) :=
  if decrypted r && negb (extract_fails (rdoc r)) then Some (page_texts (rdoc r)) else None.

Fixpoint join (sep : string) (l : list string) : string :=
  match l with
  | [] => EmptyString
  | [x] => x
  | x :: r => x ++ sep ++ join sep r
  end.

(** A wrong password (one that does not verify, or whose [decrypt] raises),
    or no password for a file the empty password does not open. *)
Definition bad_password (d : pdf_doc) (pdf_pass : option string) : Prop :=
  match pdf_pass with
  | None => verify d EmptyString = false
  | Some p => decrypt_raises d p = true \/ verify d p = false
  end.

Section Reader.
(** [PdfReader(file)]; [None] when the bytes do not parse and it raises. *)
Variable PdfReader : list Byte.byte -> option pdf_doc.

(** [read_pdf_file]; [None] is an exception leaving the function (only
    [PdfReader(file)] is outside its handlers). *)
Definition read_pdf_file (file : list Byte.byte) (file_name : string)
  (pdf_pass : option string) : option string :=
  match PdfReader file with
  | None => None
  | Some d =>
      let pdf_reader := open_reader d in
      let after_decrypt : option reader :=
        if is_encrypted d && match pdf_pass with Some _ => true | None => false end then
          let '(decrypt_success, r) :=
            match pdf_pass with
            | Some p =>
                match decrypt pdf_reader p with
                | Some (ok, r') => (ok, r')
                | None => (false, pdf_reader)
                end
            | None => (false, pdf_reader)
            end in
          if decrypt_success then Some r else None
        else Some pdf_reader in
      match after_decrypt with
      | None => Some EmptyString
      | Some r =>
          match extract_pages r with
          | Some ts => Some (join NL ts)
          | None => Some EmptyString
          end
      end
  end.

End Reader.
End Pdf.

(** ** [WebConnector]: construction and [load_from_state] *)
Module Crawl.
Import Py.

Inductive meta_value : Type := MStr (s : string) | MList (l : list string).

Record document : Type := mkDoc {
  doc_id : string;
  doc_text : string;
  doc_source : option string;
  doc_metadata : list (string * meta_value)
}.

(** The point at which the [try] block of a rendered page raises, if it does:
    [FailGoto] in [new_page]/[goto]/[page.url]; [FailContent] in
    [page.content()]/[BeautifulSoup] (after the redirect is handled);
    [FailCleanup] in [web_html_cleanup]/[find_all] (after links are pushed);
    [FailClose] in [page.close()] (after the document is appended). *)
Inductive stage : Type := NoFail | FailGoto | FailContent | FailCleanup | FailClose.

(** What the rendering session gives for one [page.goto(url)]: the final URL
    [page.url], the [href]s of the page's anchors, the cleaned text and title
    of [web_html_cleanup], the texts of the tag marker elements. *)
Record page_outcome : Type := mkPage {
  final_url : string;
  anchors : list (option string);
  cleaned_text : string;
  title : option string;
  tag_texts : list string;
  fail_at : stage
}.

(** The external world: HTTP, [pypdf], the browser (indexed by the session
    generation serving the request), [urljoin]'s resolution, the sitemap's
    [<loc>] texts ([None] when the request or [raise_for_status] raises)
    and the lines of a local file ([None] when [open] raises).  Starting and
    stopping a browser session are taken to succeed. *)
Record env : Type := mkEnv {
  requests_get : string -> option (list Byte.byte);
  PdfReader : list Byte.byte -> option Pdf.pdf_doc;
  render : nat -> string -> page_outcome;
  urljoin_resolve : string -> string -> option string;
  sitemap_locs : string -> option (list string);
  read_lines : string -> option (list string)
}.

Record connector : Type := mkConn {
  mintlify_cleanup : bool;
  batch_size : Z;
  recursive : bool;
  to_visit_list : list string
}.

Definition _ensure_valid_url (url : string) : string :=
  if contains "://" url then url else "https://" ++ url.

Definition _read_urls_file (lines : list string) : list string :=
  map (fun line => _ensure_valid_url (strip line))
      (filter (fun line => negb (String.eqb (strip line) EmptyString)) lines).

Definition extract_urls_from_sitemap (E : env) (sitemap_url : string) : option (list string) :=
  sitemap_locs E sitemap_url.

(** [WebConnector.__init__]; [None] is the [ValueError] of an unknown type
    or an exception of the sitemap request or of [open]. *)
Definition WebConnector (E : env) (base_url web_connector_type : string)
  (mintlify_cleanup : bool) (batch_size : Z) : option connector :=
  if String.eqb web_connector_type "recursive" then
    Some (mkConn mintlify_cleanup batch_size true [_ensure_valid_url base_url])
  else if String.eqb web_connector_type "single" then
    Some (mkConn mintlify_cleanup batch_size false [_ensure_valid_url base_url])
  else if String.eqb web_connector_type "sitemap" then
    option_map (mkConn mintlify_cleanup batch_size false)
      (extract_urls_from_sitemap E (_ensure_valid_url base_url))
  else if String.eqb web_connector_type "upload" then
    option_map (fun lines => mkConn mintlify_cleanup batch_size false (_read_urls_file lines))
      (read_lines E base_url)
  else None.

Record cstate : Type := mkSt {
  visited_links : list string;
  to_visit : list string;
  doc_batch : list document;
  restart_playwright : bool;
  playwright : nat;   (* generation of the current browser session *)
  starts : nat        (* sessions started so far *)
}.

(** Observable effects: sessions started and stopped, the fetch of a page
    with a session, the download of a PDF, a yielded batch. *)
Inductive event : Type :=
| EStart (g : nat)
| EStop (g : nat)
| EGoto (u : string) (g : nat)
| EGetPdf (u : string)
| EYield (b : list document).

Inductive outcome : Type := Done | OutOfFuel | Aborted.

(** [list.pop()]: the last element and the rest *)
Definition pop (l : list string) : option (string * list string) :=
  match rev l with
  | [] => None
  | x :: r => Some (x, rev r)
  end.

Definition mem (x : string) (l : list string) : bool := existsb (String.eqb x) l.
Arguments mem : simpl never.

(** [current_url.split(".")[-1] == "pdf"] *)
Definition is_pdf (u : string) : bool := String.eqb (split_last "." u) "pdf".

Definition page_metadata (o : page_outcome) : list (string * meta_value) :=
  (("title", MStr (match title o with Some t => t | None => EmptyString end))
   :: (match tag_texts o with [] => [] | l => [("content", MList l)] end))%list.

(** The session the [try] block uses: a fresh one when a restart is due. *)
Definition session_for (s : cstate) : nat :=
  if restart_playwright s then starts s else playwright s.

Section Loop.
Variable E : env.
Variable c : connector.
Variable base_url : string.

(** One iteration of [while to_visit:]; [None] when the frontier is empty. *)
Definition step (s : cstate) : option (cstate * list event) :=
  match pop (to_visit s) with
  | None => None
  | Some (current_url, rest) =>
      if mem current_url (visited_links s) then
        Some (mkSt (visited_links s) rest (doc_batch s) (restart_playwright s)
                   (playwright s) (starts s), [])
      else
        let vis := current_url :: visited_links s in
        let pw := session_for s in
        let st := if restart_playwright s then S (starts s) else starts s in
        let ev0 := if restart_playwright s then [EStart pw] else [] in
        let batch := doc_batch s in
        (* [except Exception]: log, [playwright.stop()], restart, continue *)
        let fail vis tv batch evs :=
          Some (mkSt vis tv batch true pw st, (ev0 ++ evs ++ [EStop pw])%list) in
        if is_pdf current_url then
          match requests_get E current_url with
          | None => fail vis rest batch [EGetPdf current_url]
          | Some content =>
              match Pdf.read_pdf_file (PdfReader E) content current_url None with
              | None => fail vis rest batch [EGetPdf current_url]
              | Some page_text =>
                  Some (mkSt vis rest
                          (batch ++ [mkDoc current_url page_text (Some current_url) []])%list
                          false pw st, (ev0 ++ [EGetPdf current_url])%list)
              end
          end
        else
          let o := render E pw current_url in
          let evg := [EGoto current_url pw] in
          match fail_at o with
          | FailGoto => fail vis rest batch evg
          | _ =>
            let final_page := final_url o in
            if negb (String.eqb final_page current_url) && mem final_page vis then
              Some (mkSt vis rest batch false pw st, (ev0 ++ evg)%list)
            else
              let vis := if String.eqb final_page current_url then vis
                         else final_page :: vis in
              let current_url := final_page in
              match fail_at o with
              | FailContent => fail vis rest batch evg
              | _ =>
                let internal :=
                  if recursive c then
                    Links.get_internal_links (urljoin_resolve E) base_url current_url
                      (anchors o) true
                  else Some [] in
                match internal with
                | None => fail vis rest batch evg
                | Some internal_links =>
                    let tv := (rest ++ filter (fun l => negb (mem l vis)) internal_links)%list in
                    match fail_at o with
                    | FailCleanup => fail vis tv batch evg
                    | _ =>
                      let batch :=
                        (batch ++ [mkDoc current_url (cleaned_text o) (Some current_url)
                                         (page_metadata o)])%list in
                      match fail_at o with
                      | FailClose => fail vis tv batch evg
                      | _ =>
                        if (batch_size c <=? Z.of_nat (length batch))%Z then
                          Some (mkSt vis tv [] true pw st,
                                (ev0 ++ evg ++ [EStop pw; EYield batch])%list)
                        else Some (mkSt vis tv batch false pw st, (ev0 ++ evg)%list)
                      end
                    end
                end
              end
          end
  end.

(** After the loop: [if doc_batch: playwright.stop(); yield doc_batch] *)
Definition final_flush (s : cstate) : list event :=
  match doc_batch s with
  | [] => []
  | b => [EStop (playwright s); EYield b]
  end.

Fixpoint crawl_loop (fuel : nat) (s : cstate) : list event * outcome :=
  match fuel with
  | O => ([], OutOfFuel)
  | S f =>
      match step s with
      | None => (final_flush s, Done)
      | Some (s', evs) => let '(tr, o) := crawl_loop f s' in ((evs ++ tr)%list, o)
      end
  end.

End Loop.

Definition init_state (c : connector) : cstate :=
  mkSt [] (to_visit_list c) [] false 0 1.

(** [load_from_state]: [base_url = to_visit[0]] raises [IndexError] on an
    empty frontier; the first session is started before the loop. *)
Definition load_from_state (E : env) (c : connector) (fuel : nat) : list event * outcome :=
  match to_visit_list c with
  | [] => ([], Aborted)
  | base_url :: _ =>
      let '(tr, o) := crawl_loop E c base_url fuel (init_state c) in (EStart 0 :: tr, o)
  end.

(** The documents of the yielded batches, in order. *)
Fixpoint emitted (tr : list event) : list document :=
  match tr with
  | [] => []
  | EYield b :: r => (b ++ emitted r)%list
  | _ :: r => emitted r
  end.

Fixpoint batches (tr : list event) : list (list document) :=
  match tr with
  | [] => []
  | EYield b :: r => b :: batches r
  | _ :: r => batches r
  end.

(** The URLs handed to the browser or to [requests.get]. *)
Fixpoint dispatched (tr : list event) : list string :=
  match tr with
  | [] => []
  | EGoto u _ :: r => u :: dispatched r
  | EGetPdf u :: r => u :: dispatched r
  | _ :: r => dispatched r
  end.

Definition first_dispatch (tr : list event) : option string :=
  match dispatched tr with [] => None | u :: _ => Some u end.

(** The dedup invariant of a run so far: the ids of the yielded and
    buffered documents are distinct and visited, and so are the URLs
    fetched. *)
Definition crawl_inv (s : cstate) (tr : list event) : Prop :=
  NoDup (map doc_id (emitted tr ++ doc_batch s)) /\
  incl (map doc_id (emitted tr ++ doc_batch s)) (visited_links s) /\
  NoDup (dispatched tr) /\ incl (dispatched tr) (visited_links s).

End Crawl.

(** Concrete worlds used to evaluate the crawler. *)
Module Scenarios.
Import Crawl.

Definition pdf_plain : Pdf.pdf_doc :=
  Pdf.mkPdf false (fun _ => true) (fun _ => false) ["t"] false.

(** An encrypted PDF that no password opens. *)
Definition pdf_locked : Pdf.pdf_doc :=
  Pdf.mkPdf true (fun _ => false) (fun _ => false) ["secret"] false.

(** Every request succeeds, every download parses as [pdf], every page
    renders without redirect or links, the sitemap lists [locs]. *)
Definition env_of (locs : list string) (pdf : Pdf.pdf_doc) : env :=
  mkEnv (fun _ => Some []) (fun _ => Some pdf)
        (fun _ u => mkPage u [] "txt" None [] NoFail)
        (fun _ _ => None) (fun _ => Some locs) (fun _ => None).

Definition two_pdfs : list string := ["https://x.com/a.pdf"; "https://x.com/b.pdf"].

Definition two_pages : list string := ["https://x.com/a"; "https://x.com/b"].

(** A recursive crawl of [https://a.com/docs] whose pages link to an
    in-scope page, an off-site page and their own top. *)
Definition env_links : env :=
  mkEnv (fun _ => Some []) (fun _ => Some pdf_plain)
        (fun _ u => mkPage u [Some "https://a.com/docs/q"; Some "https://b.com/docs/r";
                              Some "#top"] "txt" None [] NoFail)
        (fun _ _ => None) (fun _ => None) (fun _ => None).

Definition conn_rec : connector := mkConn true 16 true ["https://a.com/docs"].

Definition conn_locked : connector := mkConn true 16 false ["https://x.com/f.pdf"].

End Scenarios.

(** ** [web_html_cleanup] and the page one crawl iteration reads *)
Module Html.
Import Py.

(** The soup with the two attributes the code reads: the [class] tokens (the
    builder splits the multi-valued attribute on whitespace) and [href]. *)
Inductive hnode : Type :=
| HString (s : string)
| HComment (s : string)
| HDoctype (s : string)
| HTag (name : string) (classes : list string) (href : option string)
       (children : list hnode).

(** The same tree with the attributes dropped, as [format_document_soup]
    sees it. *)
Fixpoint erase (n : hnode) : Normalizer.node :=
  match n with
  | HString s => Normalizer.NString s
  | HComment s => Normalizer.NComment s
  | HDoctype s => Normalizer.NDoctype s
  | HTag nm _ _ cs => Normalizer.NTag nm (map erase cs)
  end.

(** [Tag.descendants]: pre-order, the tag itself excluded. *)
Fixpoint hdescendants (n : hnode) : list hnode :=
  match n with
  | HTag _ _ _ cs => flat_map (fun c => c :: hdescendants c) cs
  | _ => []
  end.

Definition string_text (n : hnode) : string :=
  match n with HString s => s | _ => EmptyString end.

(** [.text]: the strings among the descendants, concatenated (comments and
    doctypes are not text). *)
Definition get_text (n : hnode) : string :=
  match n with
  | HTag _ _ _ _ => String.concat EmptyString (map string_text (hdescendants n))
  | HString s | HComment s | HDoctype s => s
  end.

(** A [find_all] filter: it looks at a tag's name and classes only. *)
Definition tag_is (f : string -> list string -> bool) (n : hnode) : bool :=
  match n with HTag nm cl _ _ => f nm cl | _ => false end.

Definition named (t : string) : hnode -> bool :=
  tag_is (fun nm _ => String.eqb nm t).

(** [class_=lambda x: x and undesired_element in x.split()] *)
Definition has_class (u : string) : hnode -> bool :=
  tag_is (fun _ cl => existsb (String.eqb u) cl).

(** [class_="..."] with a string: one class token or the whole attribute. *)
Definition class_matches (v : string) (cl : list string) : bool :=
  existsb (String.eqb v) cl || String.eqb v (String.concat " " cl).

Definition href_of (n : hnode) : option string :=
  match n with HTag _ _ h _ => h | _ => None end.

(** [[tag.extract() for tag in soup.find_all(...)]]: every matching
    descendant is detached with its subtree (a match inside a detached one
    leaves the tree unchanged). *)
Fixpoint extract_all (p : hnode -> bool) (n : hnode) : hnode :=
  match n with
  | HTag nm cl h cs =>
      HTag nm cl h (flat_map (fun c => if p c then [] else [extract_all p c]) cs)
  | _ => n
  end.

(** The search of [soup.find(...)] through a list of children, [extract]
    applied to the first match: the changed children and the match. *)
Fixpoint first_in (f : hnode -> option (hnode * hnode)) (p : hnode -> bool)
  (cs : list hnode) : option (list hnode * hnode) :=
  match cs with
  | [] => None
  | c :: r =>
      if p c then Some (r, c)
      else match f c with
           | Some (c', t) => Some (c' :: r, t)
           | None => option_map (fun '(r', t) => (c :: r', t)) (first_in f p r)
           end
  end.

(** [soup.find(...).extract()]: the first matching descendant in document
    order is detached; the changed tree and the match, [None] if none. *)
Fixpoint extract_first (p : hnode -> bool) (n : hnode) : option (hnode * hnode) :=
  match n with
  | HTag nm cl h cs =>
      option_map (fun '(cs', t) => (HTag nm cl h cs', t)) (first_in (extract_first p) p cs)
  | _ => None
  end.

Definition MINTLIFY_UNWANTED : list string := ["sticky"; "hidden"].

(** ["nav,footer,meta,script,style,symbol,aside".split(",")] *)
Definition undesired_tags : list string :=
  ["nav"; "footer"; "meta"; "script"; "style"; "symbol"; "aside"].

Definition unwanted_classes (mintlify_cleanup_enabled : bool) : list string :=
  (["sidebar"; "footer"] ++ (if mintlify_cleanup_enabled then MINTLIFY_UNWANTED else []))%list.

Record ParsedHTML : Type := mkParsedHTML {
  title : option string;
  cleaned_text : string
}.

(** [web_html_cleanup(soup, mintlify_cleanup_enabled,
    additional_element_types_to_discard)] on a soup (an absent list is the
    empty one); the soup is changed in place, so the changed soup is
    returned too.  The removal of U+200B is the identity on ASCII text. *)
Definition web_html_cleanup (soup : hnode) (mintlify_cleanup_enabled : bool)
  (additional_element_types_to_discard : list string) : ParsedHTML * hnode :=
  let '(title, soup) :=
    match find (named "title") (hdescendants soup) with
    | Some title_tag =>
        if negb (String.eqb (get_text title_tag) EmptyString)
        then (Some (get_text title_tag),
              match extract_first (named "title") soup with
              | Some (soup', _) => soup'
              | None => soup
              end)
        else (None, soup)
    | None => (None, soup)
    end in
  let soup := fold_left (fun s u => extract_all (has_class u) s)
                (unwanted_classes mintlify_cleanup_enabled) soup in
  let soup := fold_left (fun s t => extract_all (named t) s) undesired_tags soup in
  let soup := fold_left (fun s t => extract_all (named t) s)
                additional_element_types_to_discard soup in
  let page_text := Normalizer.format_document_soup (erase soup) TAB in
  (mkParsedHTML title page_text, soup).

Definition is_metadata_div : hnode -> bool :=
  tag_is (fun nm cl => String.eqb nm "div" && class_matches "academy-tag-passive w-dyn-item" cl).

(** What [load_from_state] reads from the soup of a rendered page whose
    final URL is [final_page]: the anchors' [href]s (before the cleanup),
    [web_html_cleanup(soup, self.mintlify_cleanup)] and the texts of the
    metadata [div]s found in the soup it has changed. *)
Definition page_of (final_page : string) (soup : hnode) (mintlify_cleanup : bool)
  (f : Crawl.stage) : Crawl.page_outcome :=
  let anchors := map href_of (filter (named "a") (hdescendants soup)) in
  let '(parsed_html, soup) := web_html_cleanup soup mintlify_cleanup [] in
  let metadata_content := filter is_metadata_div (hdescendants soup) in
  Crawl.mkPage final_page anchors (cleaned_text parsed_html) (title parsed_html)
    (map get_text metadata_content) f.

(** Whether an element is one the cleanup discards. *)
Definition unwanted (mintlify_cleanup_enabled : bool) (extra : list string) : hnode -> bool :=
  tag_is (fun nm cl =>
    existsb (fun u => existsb (String.eqb u) cl) (unwanted_classes mintlify_cleanup_enabled)
    || Normalizer.name_in nm (undesired_tags ++ extra)%list).

(** Two nodes every [find_all] filter treats alike. *)
Definition same_head (a b : hnode) : Prop := forall f, tag_is f a = tag_is f b.

End Html.

(** ** [is_macos_resource_fork_file] and [load_files_from_zip] *)
Module Zip.
Import Py.

(** [os.path.basename] *)
Definition basename (p : string) : string := split_last "/" p.

Definition is_macos_resource_fork_file (file_name : string) : bool :=
  String.prefix "._" (basename file_name) && String.prefix "__MACOSX" file_name.

(** An archive member: its name, its bytes, the general-purpose flag bits
    and compression method of its central-directory entry, and whether its
    local file header is intact (the signature is right and the name in it
    matches). *)
Record zip_info : Type := mkInfo {
  filename : string;
  data : list Byte.byte;
  flag_bits : Z;
  compress_type : Z;
  header_ok : bool
}.

(** [ZipInfo.is_dir()]: the name ends with [/]. *)
Definition is_dir (zi : zip_info) : bool := String.prefix "/" (rev_str (filename zi)).

(** [ZipFile.open] without a password succeeds on a member when its local
    header is intact ([BadZipFile] otherwise), when none of the flag bits
    0x01 (encrypted: [RuntimeError], a password is required), 0x20
    (compressed patched data) and 0x40 (strong encryption) is set
    ([NotImplementedError] for the last two), and when its compression method
    is stored (0), deflated (8), bzip2 (12) or lzma (14)
    ([NotImplementedError] otherwise). *)
Definition readable (zi : zip_info) : bool :=
  header_ok zi && Z.eqb (Z.land (flag_bits zi) 97) 0
  && existsb (Z.eqb (compress_type zi)) [0; 8; 12; 14]%Z.

(** [zip_file.open(name)]: [getinfo(name)] is the last member of that name
    (the name table is filled in archive order), and that member is opened;
    [None] is the exception [open] raises.  Errors met while reading the
    returned file object happen in the caller. *)
Definition open_member (infolist : list zip_info) (name : string) : option (list Byte.byte) :=
  match find (fun zi => String.eqb (filename zi) name) (rev infolist) with
  | Some zi => if readable zi then Some (data zi) else None
  | None => None
  end.

(** The generator's run over the members [infolist()] lists, for an
    archive [ZipFile] has opened: the pairs it yields and whether it then
    raises. *)
Fixpoint zip_loop (infolist : list zip_info)
  (ignore_macos_resource_fork_files ignore_dirs : bool) (members : list zip_info)
  : list (zip_info * list Byte.byte) * bool :=
  match members with
  | [] => ([], false)
  | file_info :: rest =>
      match open_member infolist (filename file_info) with
      | None => ([], true)
      | Some file =>
          let '(ys, raised) :=
            zip_loop infolist ignore_macos_resource_fork_files ignore_dirs rest in
          if ignore_dirs && is_dir file_info then (ys, raised)
          else if ignore_macos_resource_fork_files
                  && is_macos_resource_fork_file (filename file_info) then (ys, raised)
          else ((file_info, file) :: ys, raised)
      end
  end.

Definition load_files_from_zip (infolist : list zip_info)
  (ignore_macos_resource_fork_files ignore_dirs : bool)
  : list (zip_info * list Byte.byte) * bool :=
  zip_loop infolist ignore_macos_resource_fork_files ignore_dirs infolist.

End Zip.

(** ** [WebConnector.parse_metadata] *)
Module Meta.
Import Py.

(** A metadata value: a [str], a [list] of values, or anything else. *)
Inductive pyval : Type := PyStr (s : string) | PyList (l : list pyval) | PyOther.

Fixpoint all_str (l : list pyval) : option (list string) :=
  match l with
  | [] => Some []
  | PyStr s :: r => option_map (cons s) (all_str r)
  | _ :: _ => None
  end.

(** The loop over [metadata.items()]; [None] is the [RuntimeError]. *)
Fixpoint parse_loop (items : list (string * pyval)) (metadata_lines : list string)
  : option (list string) :=
  match items with
  | [] => Some metadata_lines
  | (metadata_key, metadata_value) :: rest =>
      match metadata_value with
      | PyStr s => parse_loop rest (metadata_lines ++ [(metadata_key ++ ": " ++ s)%string])%list
      | PyList vals =>
          match all_str vals with
          | Some strs =>
              parse_loop rest
                (metadata_lines ++ [(metadata_key ++ ": " ++ Pdf.join ", " strs)%string])%list
          | None => None
          end
      | PyOther => None
      end
  end.

Definition parse_metadata (metadata : list (string * pyval)) : option (list string) :=
  parse_loop metadata [].

(** The text of the line [parse_metadata] writes for a value, [None] for
    a value that makes it raise. *)
Definition value_text (v : pyval) : option string :=
  match v with
  | PyStr s => Some s
  | PyList vals => option_map (Pdf.join ", ") (all_str vals)
  | PyOther => None
  end.

(** The values the crawler stores in a document's metadata. *)
Definition to_py (v : Crawl.meta_value) : pyval :=
  match v with
  | Crawl.MStr s => PyStr s
  | Crawl.MList l => PyList (map PyStr l)
  end.

Definition to_py_dict (md : list (string * Crawl.meta_value)) : list (string * pyval) :=
  map (fun kv => (fst kv, to_py (snd kv))) md.

End Meta.

(** ** Observable shapes of traces and texts *)
Module Shapes.
Import Py Crawl.

(** Every pair of neighbouring characters satisfies [f]. *)
Fixpoint adj_ok (f : ascii -> ascii -> bool) (s : string) : bool :=
  match s with
  | String a ((String b _) as r) => f a b && adj_ok f r
  | _ => true
  end.

Definition is_cr (c : ascii) : bool := Nat.eqb (nat_of_ascii c) 13.

Definition first_nl (s : string) : bool :=
  match s with String c _ => is_nl c | EmptyString => false end.

Definition no_double_space (a b : ascii) : bool := negb (is_sp a && is_sp b).
Definition no_space_before_newline (a b : ascii) : bool := negb (is_sp a && is_nl b).
Definition no_double_newline (a b : ascii) : bool := negb (is_nl a && is_nl b).

(** Text with no whitespace at either end, no carriage return, no two
    spaces or two newlines in a row and no space before a newline. *)
Definition normalized (s : string) : bool :=
  negb (first_is_space s) && negb (last_is_space s)
  && adj_ok no_double_space s && adj_ok no_space_before_newline s
  && adj_ok no_double_newline s && Links.all_chars (fun c => negb (is_cr c)) s.

(** Whether [pdf_pass] gets the text out of the parsed file [d]. *)
Definition pdf_readable (d : Pdf.pdf_doc) (pdf_pass : option string) : bool :=
  negb (Pdf.extract_fails d) &&
  (if Pdf.is_encrypted d then
     match pdf_pass with
     | Some p => negb (Pdf.decrypt_raises d p) && Pdf.verify d p
     | None => Pdf.verify d EmptyString
     end
   else true).

End Shapes.

(** ** [check_password] of [planA_streamlit.py] *)
Module Streamlit.

(** The two keys of [st.session_state] the password gate uses. *)
Record session_state : Type := mkSession {
  password : option string;
  password_correct : option bool
}.

(** A Python [str] is represented by its UTF-8 bytes: two [str]s are equal
    exactly when their encodings are, and a [str] is ASCII exactly when every
    byte of its encoding is below 128. *)
Definition is_ascii (s : string) : bool :=
  forallb (fun a => Nat.ltb (Ascii.nat_of_ascii a) 128) (list_ascii_of_string s).

(** [hmac.compare_digest] on two [str]s: their equality when both are
    ASCII; [None] is the [TypeError] it raises when either is not. *)
Definition compare_digest (a b : string) : option bool :=
  if is_ascii a && is_ascii b then Some (String.eqb a b) else None.

(** [password_entered]; [None] is the [KeyError] of a missing
    ["password"] or the [TypeError] of [compare_digest]. *)
Definition password_entered (secret : string) (s : session_state) : option session_state :=
  match password s with
  | None => None
  | Some p =>
      match compare_digest p secret with
      | None => None
      | Some true => Some (mkSession None (Some true))
      | Some false => Some (mkSession (Some p) (Some false))
      end
  end.

(** [check_password()]: what it returns and whether it shows the error;
    when it returns [False] the password input is on the page. *)
Definition check_password (s : session_state) : bool * bool :=
  if match password_correct s with Some b => b | None => false end then (true, false)
  else (false, match password_correct s with Some _ => true | None => false end).

(** The user types [p] into the input: the widget stores it under its key
    ["password"], then its [on_change] callback runs. *)
Definition enter (secret p : string) (s : session_state) : option session_state :=
  password_entered secret (mkSession (Some p) (password_correct s)).

(** Entries made between reruns; one can only be made while the input is
    shown, otherwise nothing is typed. *)
Fixpoint session (secret : string) (s : session_state) (entries : list string)
  : option session_state :=
  match entries with
  | [] => Some s
  | p :: r =>
      if fst (check_password s) then session secret s r
      else match enter secret p s with
           | Some s' => session secret s' r
           | None => None
           end
  end.

End Streamlit.

(** * Properties of the text normalizer *)
Module NormalizerFacts.
Import Py Normalizer.

Ltac split_ifs :=
  repeat match goal with
         | |- context [if ?b then _ else _] => destruct b eqn:?
         end.

Lemma eqb_true_eq (a b : string) : String.eqb a b = true -> a = b.
Proof. apply String.eqb_eq. Qed.

Lemma fstep_keeps_table sep st e :
  name_ok e = true -> in_table st = true -> in_table (fstep sep st e) = true.
Proof.
  destruct st as [t l v tb ln]; simpl; intros Hok Ht; subst tb.
  destruct e as [s|s|s|name cs]; simpl; try reflexivity.
  - destruct (ln && startswith_space _); destruct (String.eqb _ EmptyString); reflexivity.
  - split_ifs; simpl; try reflexivity.
    match goal with H : String.eqb name "/table" = true |- _ =>
      apply eqb_true_eq in H; subst name; discriminate Hok end.
Qed.

Lemma walk_keeps_table sep l st :
  Forall (fun e => name_ok e = true) l -> in_table st = true ->
  in_table (fold_left (fstep sep) l st) = true.
Proof.
  induction l as [|e l IH] in st |- *; intros Hl Ht; simpl; [exact Ht|].
  inversion Hl; subst. apply IH; [assumption|]. now apply fstep_keeps_table.
Qed.

Lemma walk_enters_table sep l st cs :
  Forall (fun e => name_ok e = true) l -> In (NTag "table" cs) l ->
  in_table (fold_left (fstep sep) l st) = true.
Proof.
  induction l as [|e l IH] in st |- *; intros Hl Hin; [destruct Hin|].
  inversion Hl; subst. simpl. destruct Hin as [Heq|Hin].
  - subst e. apply walk_keeps_table; [assumption|]. destruct st; reflexivity.
  - now apply IH.
Qed.

Lemma table_rules_hold sep st e :
  name_ok e = true -> in_table st = true -> table_mode_rules sep st e.
Proof.
  destruct st as [t l v tb ln]; simpl; intros Hok Ht; subst tb.
  destruct e as [s|s|s|name cs]; unfold table_mode_rules, fstep; simpl;
    try reflexivity.
  - destruct (ln && startswith_space _); simpl;
      destruct (String.eqb _ EmptyString); reflexivity.
  - split_ifs; simpl in *; try reflexivity; try discriminate;
      repeat match goal with
             | H : (_ || _) = true |- _ => apply orb_true_iff in H; destruct H as [H|H]
             | H : (_ && _) = true |- _ => apply andb_true_iff in H; destruct H as [H ?]
             | H : String.eqb _ _ = true |- _ => apply eqb_true_eq in H; subst
             end;
      simpl in *; try discriminate; reflexivity.
Qed.

(** ** Claim C9: once a [<table>] element has been walked, table mode stays on
    for every later node of the document: no node [html.parser] produces is
    a tag named ["/table"], and every later node obeys the table-mode rules
    ([td]/[th] append the separator, [tr] a newline, other tags add nothing,
    text is collapsed and stripped as a table cell). *)
Theorem table_mode_sticks : forall sep d l1 m1 e m2 cs,
  Forall (fun x => name_ok x = true) (descendants d) ->
  descendants d = (l1 ++ m1 ++ e :: m2)%list ->
  In (NTag "table" cs) l1 ->
  (forall x, In x (descendants d) -> forall ys, x <> NTag "/table" ys) /\
  in_table (walk sep (l1 ++ m1)) = true /\
  in_table (walk sep (l1 ++ m1 ++ [e])) = true /\
  table_mode_rules sep (walk sep (l1 ++ m1)) e.
Proof.
  intros sep d l1 m1 e m2 cs Hok Hd Hin.
  assert (Hall : Forall (fun x => name_ok x = true) (l1 ++ m1 ++ e :: m2)%list)
    by (rewrite <- Hd; exact Hok).
  assert (Hpre : in_table (walk sep (l1 ++ m1)) = true).
  { unfold walk. rewrite fold_left_app.
    apply Forall_app in Hall as [H1 H2]. apply Forall_app in H2 as [H2 _].
    apply walk_keeps_table; [assumption|]. now apply (walk_enters_table _ _ _ cs). }
  split; [|split; [exact Hpre|split]].
  - intros x Hx ys ->. rewrite Forall_forall in Hok. specialize (Hok _ Hx).
    discriminate Hok.
  - unfold walk in *. rewrite app_assoc, fold_left_app. simpl.
    apply fstep_keeps_table; [|exact Hpre].
    rewrite Forall_forall in Hall. apply Hall.
    apply in_or_app; right; apply in_or_app; right; left; reflexivity.
  - apply table_rules_hold; [|exact Hpre].
    rewrite Forall_forall in Hall. apply Hall.
    apply in_or_app; right; apply in_or_app; right; left; reflexivity.
Qed.

Lemma table_mode_sticks_witness :
  Forall (fun x => name_ok x = true) (descendants table_then_p) /\
  table_mode_rules TAB
    (walk TAB [NTag "table" [NTag "tr" [NTag "td" [NString "A"]]];
               NTag "tr" [NTag "td" [NString "A"]]; NTag "td" [NString "A"]; NString "A"])
    (NTag "p" [NString "x"]).
Proof.
  split; [repeat constructor|].
  apply (table_mode_sticks TAB table_then_p
           [NTag "table" [NTag "tr" [NTag "td" [NString "A"]]];
            NTag "tr" [NTag "td" [NString "A"]]; NTag "td" [NString "A"]; NString "A"]
           [] (NTag "p" [NString "x"]) [NString "x"] [NTag "tr" [NTag "td" [NString "A"]]]).
  - repeat constructor.
  - reflexivity.
  - left; reflexivity.
Defined.

(** ** Claim C4 (counterexample): the two-row table does not normalize to
    ["A\tB\nC\tD"]. *)
Lemma table_format_counterexample :
  format_document_soup table_doc TAB
  <> "A" ++ TAB ++ "B" ++ NL ++ "C" ++ TAB ++ "D".
Proof. vm_compute. discriminate. Qed.

(** ** Claim C4 (amended): the two-row table normalizes to
    ["A\tB\n\tC\tD"]: each cell is preceded by a tab and each row by a
    newline, and the final strip removes only the first row's newline and
    tab. *)
Theorem table_format :
  format_document_soup table_doc TAB
  = "A" ++ TAB ++ "B" ++ NL ++ TAB ++ "C" ++ TAB ++ "D".
Proof. vm_compute. reflexivity. Qed.

(** ** Claim C5 (code bug): for [<pre>a\nb</pre>] the newline is not kept:
    the verbatim counter is set to the number of children (1) and is
    decremented before the text node is tested, so the text is collapsed to
    ["a b"]. *)
Theorem pre_newline_collapsed :
  format_document_soup pre_doc TAB = "a b" /\
  verbatim_output (walk TAB [NTag "pre" [NString ("a" ++ NL ++ "b")]]) = 1%Z.
Proof. split; vm_compute; reflexivity. Qed.

End NormalizerFacts.

(** * Properties of the link extractor *)
Module LinksFacts.
Import Py Links.

Lemma set_add_In x u l : In u (set_add x l) <-> u = x \/ In u l.
Proof.
  unfold set_add. destruct (existsb (String.eqb x) l) eqn:E.
  - split; [now right|]. intros [->|H]; [|exact H].
    apply existsb_exists in E as [y [Hy Heq]]. apply String.eqb_eq in Heq. now subst.
  - rewrite in_app_iff. simpl. intuition.
Qed.

Lemma links_loop_spec resolve base url pound anchors acc links :
  links_loop resolve base url pound anchors acc = Some links ->
  forall u, In u links <->
    In u acc \/
    exists href, In (Some href) anchors /\ href <> EmptyString /\
      candidate resolve pound url href = Some u /\ keep base url u = Some true.
Proof.
  induction anchors as [|a anchors IH] in acc |- *; simpl; intros H u.
  - injection H as <-. split; [now left|]. intros [H|[? [[] _]]]; exact H.
  - destruct a as [href|].
    + destruct href as [|ch hr].
      * rewrite (IH _ H). split.
        -- intros [H1|[h [H1 H2]]]; [now left|right; exists h; split; [now right|exact H2]].
        -- intros [H1|[h [[E|H1] H2]]]; [now left| |right; exists h; split; [exact H1|exact H2]].
           injection E as <-. now destruct H2.
      * destruct (candidate resolve pound url (String ch hr)) as [h|] eqn:Ec; [|discriminate].
        destruct (keep base url h) as [[|]|] eqn:Ek; [| |discriminate];
          rewrite (IH _ H), ?set_add_In; split.
        -- intros [[->|H1]|[h' [H1 H2]]].
           ++ right. exists (String ch hr). repeat split; [now left|discriminate|exact Ec|exact Ek].
           ++ now left.
           ++ right. exists h'. split; [now right|exact H2].
        -- intros [H1|[h' [[E|H1] H2]]].
           ++ left; now right.
           ++ injection E as <-. destruct H2 as [_ [H2 _]]. rewrite Ec in H2.
              injection H2 as <-. left; now left.
           ++ right. exists h'. split; [exact H1|exact H2].
        -- intros [H1|[h' [H1 H2]]]; [now left|right; exists h'; split; [now right|exact H2]].
        -- intros [H1|[h' [[E|H1] H2]]].
           ++ now left.
           ++ injection E as <-. destruct H2 as [_ [H2 H3]]. rewrite Ec in H2.
              injection H2 as <-. rewrite Ek in H3. discriminate H3.
           ++ right. exists h'. split; [exact H1|exact H2].
    + rewrite (IH _ H). split.
      * intros [H1|[h [H1 H2]]]; [now left|right; exists h; split; [now right|exact H2]].
      * intros [H1|[h [[E|H1] H2]]]; [now left|discriminate|right; exists h; split; [exact H1|exact H2]].
Qed.

Lemma keep_true base url u :
  keep base url u = Some true <->
  (exists n, netloc_of u = Some n /\ netloc_of url = Some n) /\ contains base u = true.
Proof.
  unfold keep. split.
  - destruct (netloc_of u) as [n1|], (netloc_of url) as [n2|]; try discriminate.
    intros H. injection H as H. apply andb_true_iff in H as [H1 H2].
    apply String.eqb_eq in H1. subst. eauto.
  - intros [[n [H1 H2]] H3]. rewrite H1, H2, String.eqb_refl, H3. reflexivity.
Qed.

(** Every returned link comes from an anchor with a non-empty [href], has the
    network location of [url] and contains [base_url]; conversely each such
    candidate is returned. *)
Lemma get_internal_links_spec resolve base url anchors pound links :
  get_internal_links resolve base url anchors pound = Some links ->
  forall u, In u links <->
    exists href, In (Some href) anchors /\ href <> EmptyString /\
      candidate resolve pound url href = Some u /\
      (exists n, netloc_of u = Some n /\ netloc_of url = Some n) /\
      contains base u = true.
Proof.
  intros H u. unfold get_internal_links in H. rewrite (links_loop_spec _ _ _ _ _ _ _ H).
  split.
  - intros [[]|[h [H1 [H2 [H3 H4]]]]]. exists h. rewrite keep_true in H4. tauto.
  - intros [h [H1 [H2 [H3 H4]]]]. right. exists h. rewrite keep_true. tauto.
Qed.

(** ** Claim C10 (counterexample): a fragment-only anchor on a page whose URL
    does not contain the scope URL is not returned. *)
Lemma fragment_self_link_counterexample :
  ~ exists links,
      get_internal_links (fun _ _ => None) "https://a.com/docs" "https://a.com/blog"
        [Some "#top"] true = Some links /\ In "https://a.com/blog" links.
Proof.
  intros [links [H Hin]]. vm_compute in H. injection H as <-. destruct Hin.
Qed.

(** The resolution of a fragment-only [href] with stripping on: the
    fragment is cut, leaving the empty string, and [urljoin] of the page URL
    with it is the page URL. *)
Lemma fragment_candidate resolve url frag :
  candidate resolve true url (String "#" frag) = Some url.
Proof.
  assert (Hc : candidate resolve true url (String "#" frag) = urljoin resolve url EmptyString)
    by reflexivity.
  rewrite Hc. unfold urljoin. destruct (String.eqb url EmptyString) eqn:E; [|reflexivity].
  apply String.eqb_eq in E. now subst.
Qed.

(** ** Claim C10 (amended): with fragment stripping on, an anchor whose
    [href] is only a fragment, anywhere among the page's anchors, is
    stripped to the empty string and [urljoin] resolves it to the page URL
    itself; that URL passes the network-location test, and it is among the
    returned links exactly when it contains the scope URL. *)
Theorem fragment_self_link resolve base url frag n anchors :
  In (Some (String "#" frag)) anchors ->
  netloc_of url = Some n ->
  candidate resolve true url (String "#" frag) = Some url /\
  keep base url url = Some (contains base url) /\
  forall links, get_internal_links resolve base url anchors true = Some links ->
    (In url links <-> contains base url = true).
Proof.
  intros Ha Hn. assert (Hk : keep base url url = Some (contains base url))
    by (unfold keep; rewrite Hn, String.eqb_refl; reflexivity).
  split; [apply fragment_candidate|split; [exact Hk|]].
  intros links Hl. rewrite (get_internal_links_spec _ _ _ _ _ _ Hl url). split.
  - intros [_ [_ [_ [_ [_ H]]]]]. exact H.
  - intros Hc. exists (String "#" frag). split; [exact Ha|].
    split; [discriminate|]. split; [apply fragment_candidate|].
    split; [exists n; auto|exact Hc].
Qed.

Lemma fragment_self_link_witness :
  In (Some "#top") [Some "/docs/q"; None; Some "#top"] /\
  netloc_of "https://a.com/docs/p" = Some "a.com" /\
  get_internal_links (fun _ h => Some ("https://a.com" ++ h)%string) "https://a.com/docs" "https://a.com/docs/p"
    [Some "/docs/q"; None; Some "#top"] true
  = Some ["https://a.com/docs/q"; "https://a.com/docs/p"] /\
  In "https://a.com/docs/p" ["https://a.com/docs/q"; "https://a.com/docs/p"].
Proof.
  assert (Ha : In (Some "#top") [Some "/docs/q"; None; Some "#top"])
    by (right; right; left; reflexivity).
  assert (Hn : netloc_of "https://a.com/docs/p" = Some "a.com") by reflexivity.
  assert (Hl : get_internal_links (fun _ h => Some ("https://a.com" ++ h)%string) "https://a.com/docs" "https://a.com/docs/p"
                 [Some "/docs/q"; None; Some "#top"] true
               = Some ["https://a.com/docs/q"; "https://a.com/docs/p"])
    by (vm_compute; reflexivity).
  split; [exact Ha|split; [exact Hn|split; [exact Hl|]]].
  destruct (fragment_self_link (fun _ h => Some ("https://a.com" ++ h)%string) "https://a.com/docs" "https://a.com/docs/p"
              "top" "a.com" _ Ha Hn) as [_ [_ H]].
  apply (proj2 (H _ Hl)). reflexivity.
Defined.

End LinksFacts.

(** * Properties of the PDF reader *)
Module PdfFacts.
Import Pdf.

Lemma read_pdf_bad_password PR file name pdf_pass d :
  PR file = Some d -> is_encrypted d = true -> bad_password d pdf_pass ->
  read_pdf_file PR file name pdf_pass = Some EmptyString.
Proof.
  intros Hd He Hb. unfold read_pdf_file. rewrite Hd, He. simpl.
  destruct pdf_pass as [p|]; simpl in Hb.
  - unfold decrypt. simpl. destruct (decrypt_raises d p) eqn:Er; simpl; [reflexivity|].
    destruct Hb as [Hb|Hb]; [discriminate|]. rewrite Hb. reflexivity.
  - unfold extract_pages, open_reader. simpl. rewrite He, Hb. reflexivity.
Qed.

End PdfFacts.

(** * Properties of the crawler *)
Module CrawlFacts.
Import Py Crawl.

Ltac bool_atom b :=
  match b with
  | negb ?a => bool_atom a
  | andb ?a _ => bool_atom a
  | orb ?a _ => bool_atom a
  | _ => constr:(b)
  end.

(** Split a hypothesis [step .. = Some (s', evs)] into the branches of the
    loop body. *)
Ltac step_cases H :=
  unfold step, session_for in H; cbv zeta in H;
  repeat (match type of H with
          | context [match ?x with _ => _ end] =>
              (let a := bool_atom x in destruct a eqn:?)
          end; cbn beta iota delta [andb orb negb] in H);
  try discriminate H;
  injection H as <- <-.

Lemma mem_In x l : mem x l = true <-> In x l.
Proof.
  unfold mem. rewrite existsb_exists. split.
  - intros [y [Hy Heq]]. apply String.eqb_eq in Heq. now subst.
  - intros H. exists x. split; [exact H|apply String.eqb_refl].
Qed.

Lemma mem_not_In x l : mem x l = false <-> ~ In x l.
Proof.
  split; intros H.
  - intros Hin. apply mem_In in Hin. congruence.
  - destruct (mem x l) eqn:E; [exfalso; apply H; now apply mem_In|reflexivity].
Qed.

Lemma pop_app l x r : pop l = Some (x, r) -> l = (r ++ [x])%list.
Proof.
  unfold pop. intros H. destruct (rev l) as [|y t] eqn:E; [discriminate|].
  injection H as <- <-. rewrite <- (rev_involutive l), E. reflexivity.
Qed.

Lemma step_dispatched E c base s s' evs :
  step E c base s = Some (s', evs) ->
  exists cur rest, pop (to_visit s) = Some (cur, rest) /\
    dispatched evs = (if mem cur (visited_links s) then [] else [cur]).
Proof.
  intros H. step_cases H; eexists _, _; split; try reflexivity; simpl;
    rewrite ?Heqb; reflexivity.
Qed.

Ltac bool_facts :=
  repeat match goal with
         | H : mem _ _ = false |- _ => apply mem_not_In in H
         | H : mem _ _ = true |- _ => apply mem_In in H
         | H : String.eqb _ _ = false |- _ => apply String.eqb_neq in H
         | H : String.eqb _ _ = true |- _ => apply String.eqb_eq in H; subst
         end.

(** What one iteration does to the visited set, the documents and the
    fetches: it adds [fresh] URLs not visited before, adds at most the
    documents [new] whose ids are among them, and fetches only them. *)
Lemma step_shape E c base s s' evs :
  step E c base s = Some (s', evs) ->
  exists fresh new,
    visited_links s' = (fresh ++ visited_links s)%list /\
    NoDup fresh /\ (forall u, In u fresh -> ~ In u (visited_links s)) /\
    (emitted evs ++ doc_batch s' = doc_batch s ++ new)%list /\
    NoDup (map doc_id new) /\ incl (map doc_id new) fresh /\
    NoDup (dispatched evs) /\ incl (dispatched evs) fresh.
Proof.
  intros H. step_cases H; bool_facts; cbn [visited_links doc_batch];
  match goal with
  | |- exists f n, ?V = _ /\ _ /\ _ /\ (emitted ?EV ++ ?D = _)%list /\ _ =>
      match V with
      | ?a :: ?b :: _ => exists [a; b]
      | ?a :: _ => exists [a]
      | _ => exists []
      end;
      match D with
      | (_ ++ [?d])%list => exists [d]
      | [] => match EV with
              | context [EYield (_ ++ [?d])] => exists [d]
              | _ => exists []
              end
      | _ => exists []
      end
  end;
  simpl; rewrite ?app_nil_r;
  repeat split; try reflexivity; unfold incl; simpl in *;
  repeat match goal with |- NoDup _ => constructor end; simpl;
  intuition (subst; auto; try congruence).
Qed.

Lemma emitted_app l1 l2 : emitted (l1 ++ l2) = (emitted l1 ++ emitted l2)%list.
Proof.
  induction l1 as [|e l1 IH]; [reflexivity|].
  destruct e; simpl; rewrite ?IH, ?app_assoc; reflexivity.
Qed.

Lemma dispatched_app l1 l2 : dispatched (l1 ++ l2) = (dispatched l1 ++ dispatched l2)%list.
Proof.
  induction l1 as [|e l1 IH]; [reflexivity|].
  destruct e; simpl; rewrite ?IH; reflexivity.
Qed.

Lemma NoDup_app_disjoint (l1 l2 : list string) (V : list string) :
  NoDup l1 -> incl l1 V -> NoDup l2 -> (forall u, In u l2 -> ~ In u V) ->
  NoDup (l1 ++ l2).
Proof.
  intros H1 Hi H2 Hd. apply NoDup_app; [exact H1|exact H2|].
  intros a Ha Hb. exact (Hd a Hb (Hi a Ha)).
Qed.

Lemma inv_step E c base s s' tr evs :
  crawl_inv s tr -> step E c base s = Some (s', evs) -> crawl_inv s' (tr ++ evs).
Proof.
  intros [Hn [Hi [Hdn Hdi]]] Hs.
  destruct (step_shape _ _ _ _ _ _ Hs)
    as [fresh [new [Hv [Hf [Hfv [He [Hnn [Hni [Hdn' Hdi']]]]]]]]].
  assert (Hsub : incl (visited_links s) (visited_links s')).
  { rewrite Hv. intros u Hu. apply in_or_app. now right. }
  assert (Hfsub : incl fresh (visited_links s')).
  { rewrite Hv. intros u Hu. apply in_or_app. now left. }
  unfold crawl_inv. rewrite emitted_app, dispatched_app, <- app_assoc, He, app_assoc.
  rewrite map_app. repeat split.
  - apply (NoDup_app_disjoint _ _ (visited_links s)); [exact Hn|exact Hi|exact Hnn|].
    intros u Hu. apply Hfv. now apply Hni.
  - intros u Hu. apply in_app_or in Hu as [Hu|Hu]; [apply Hsub, Hi, Hu|apply Hfsub, Hni, Hu].
  - apply (NoDup_app_disjoint _ _ (visited_links s)); [exact Hdn|exact Hdi|exact Hdn'|].
    intros u Hu. apply Hfv. now apply Hdi'.
  - intros u Hu. apply in_app_or in Hu as [Hu|Hu]; [apply Hsub, Hdi, Hu|apply Hfsub, Hdi', Hu].
Qed.

Lemma inv_loop E c base fuel s tr :
  crawl_inv s tr ->
  NoDup (map doc_id (emitted (tr ++ fst (crawl_loop E c base fuel s)))) /\
  NoDup (dispatched (tr ++ fst (crawl_loop E c base fuel s))).
Proof.
  induction fuel as [|f IH] in s, tr |- *; intros Hinv; simpl.
  - rewrite app_nil_r. destruct Hinv as [Hn [_ [Hd _]]]. split; [|exact Hd].
    rewrite map_app in Hn. now apply NoDup_app_remove_r in Hn.
  - destruct (step E c base s) as [[s' evs]|] eqn:Hs.
    + specialize (IH s' (tr ++ evs)%list (inv_step _ _ _ _ _ _ _ Hinv Hs)).
      destruct (crawl_loop E c base f s') as [tr' o]. simpl in *.
      rewrite app_assoc. exact IH.
    + destruct Hinv as [Hn [_ [Hd _]]]. simpl.
      rewrite emitted_app, dispatched_app. unfold final_flush.
      destruct (doc_batch s) as [|d b] eqn:Eb; simpl.
      * rewrite !app_nil_r. rewrite app_nil_r in Hn. split; assumption.
      * rewrite !app_nil_r. split; [exact Hn|exact Hd].
Qed.

(** What one iteration does with the URL it pops. *)
Lemma step_visits E c base s cur rest :
  pop (to_visit s) = Some (cur, rest) ->
  (In cur (visited_links s) ->
     step E c base s = Some (mkSt (visited_links s) rest (doc_batch s)
                               (restart_playwright s) (playwright s) (starts s), [])) /\
  (~ In cur (visited_links s) -> forall s' evs, step E c base s = Some (s', evs) ->
     In cur (visited_links s') /\
     incl (visited_links s) (visited_links s') /\
     (is_pdf cur = false -> fail_at (render E (session_for s) cur) <> FailGoto ->
        In (final_url (render E (session_for s) cur)) (visited_links s'))).
Proof.
  intros Hp. split.
  - intros Hin. apply mem_In in Hin. unfold step. rewrite Hp, Hin. reflexivity.
  - intros Hnin s' evs Hs.
    unfold session_for. apply mem_not_In in Hnin.
    unfold step in Hs. rewrite Hp in Hs. cbv beta iota in Hs. rewrite Hnin in Hs.
    step_cases Hs;
      bool_facts; simpl in *; try contradiction;
      repeat split; unfold incl; simpl; intros; try discriminate;
      try congruence; intuition (subst; auto).
Qed.

(** ** Claim C1: no document id is emitted twice and no URL is fetched twice
    in any crawl (run for any number of iterations); a popped URL already
    visited is dropped with no effect but its removal from the frontier;
    otherwise the popped URL, and the final URL of a rendered page, are in
    the visited set after the iteration, which never shrinks. *)
Theorem no_double_visit E conn fuel :
  NoDup (map doc_id (emitted (fst (load_from_state E conn fuel)))) /\
  NoDup (dispatched (fst (load_from_state E conn fuel))) /\
  (forall c base s cur rest, pop (to_visit s) = Some (cur, rest) ->
    (In cur (visited_links s) ->
       step E c base s = Some (mkSt (visited_links s) rest (doc_batch s)
                                 (restart_playwright s) (playwright s) (starts s), [])) /\
    (~ In cur (visited_links s) -> forall s' evs, step E c base s = Some (s', evs) ->
       In cur (visited_links s') /\
       incl (visited_links s) (visited_links s') /\
       (is_pdf cur = false -> fail_at (render E (session_for s) cur) <> FailGoto ->
          In (final_url (render E (session_for s) cur)) (visited_links s')))).
Proof.
  split; [|split; [|intros c base s cur rest; apply step_visits]];
  unfold load_from_state; destruct (to_visit_list conn) as [|base r] eqn:Ec;
    try (simpl; constructor);
  (assert (Hi : crawl_inv (init_state conn) [EStart 0])
     by (repeat split; simpl; try constructor; intros u []));
  pose proof (inv_loop E conn base fuel _ _ Hi) as [H1 H2];
  destruct (crawl_loop E conn base fuel (init_state conn)); simpl in *; assumption.
Qed.

Lemma no_double_visit_witness :
  NoDup (map doc_id (emitted (fst (load_from_state Scenarios.env_links Scenarios.conn_rec 10)))) /\
  step Scenarios.env_links Scenarios.conn_rec "https://a.com/docs"
    (mkSt ["https://a.com/docs"] ["https://a.com/docs"] [] false 0 1)
  = Some (mkSt ["https://a.com/docs"] [] [] false 0 1, []).
Proof.
  split.
  - exact (proj1 (no_double_visit Scenarios.env_links Scenarios.conn_rec 10)).
  - exact (proj1 (proj2 (proj2 (no_double_visit Scenarios.env_links Scenarios.conn_rec 10))
             Scenarios.conn_rec "https://a.com/docs"
             (mkSt ["https://a.com/docs"] ["https://a.com/docs"] [] false 0 1)
             "https://a.com/docs" [] eq_refl) (or_introl eq_refl)).
Defined.

Lemma step_pushed E c base s s' evs :
  step E c base s = Some (s', evs) ->
  forall u, In u (to_visit s') ->
    In u (to_visit s) \/
    exists cur rest links, pop (to_visit s) = Some (cur, rest) /\ recursive c = true /\
      Links.get_internal_links (urljoin_resolve E) base
        (final_url (render E (session_for s) cur))
        (anchors (render E (session_for s) cur)) true = Some links /\
      In u links.
Proof.
  intros Hs u Hu. unfold session_for.
  step_cases Hs; apply pop_app in Heqo as Hto; rewrite Hto; simpl in Hu;
    rewrite ?Heqb4 in *;
    try (left; apply in_or_app; left; exact Hu);
    apply in_app_or in Hu as [Hu|Hu];
    try (left; apply in_or_app; left; exact Hu);
    apply filter_In in Hu as [Hu _];
    match goal with
    | H : (if recursive c then _ else _) = Some _ |- _ =>
        destruct (recursive c) eqn:Hr; [|injection H as <-; destruct Hu]
    end;
    right; do 3 eexists; (split; [reflexivity|split; [reflexivity|split; [eassumption|exact Hu]]]).
Qed.

(** ** Claim C6: every link the extractor returns comes from an anchor,
    has the network location of the page and contains the scope URL, and
    every anchor candidate meeting both conditions is returned (so one
    failing either is not); and one crawl iteration pushes onto the
    frontier only such links, computed for the page's final URL. *)
Theorem scope_containment :
  (forall resolve base url anchors pound links,
     Links.get_internal_links resolve base url anchors pound = Some links ->
     forall u, In u links <->
       exists href, In (Some href) anchors /\ href <> EmptyString /\
         Links.candidate resolve pound url href = Some u /\
         (exists n, Links.netloc_of u = Some n /\ Links.netloc_of url = Some n) /\
         contains base u = true) /\
  (forall E c base s s' evs, step E c base s = Some (s', evs) ->
     forall u, In u (to_visit s') ->
       In u (to_visit s) \/
       exists cur rest, pop (to_visit s) = Some (cur, rest) /\
         (exists n, Links.netloc_of u = Some n /\
            Links.netloc_of (final_url (render E (session_for s) cur)) = Some n) /\
         contains base u = true).
Proof.
  split.
  - exact LinksFacts.get_internal_links_spec.
  - intros E c base s s' evs Hs u Hu.
    destruct (step_pushed _ _ _ _ _ _ Hs u Hu) as [H|[cur [rest [links [Hp [_ [Hl Hin]]]]]]];
      [now left|right].
    exists cur, rest. split; [exact Hp|].
    apply (LinksFacts.get_internal_links_spec _ _ _ _ _ _ Hl) in Hin
      as [h [_ [_ [_ [Hn Hc]]]]].
    split; [exact Hn|exact Hc].
Qed.

Lemma scope_containment_witness :
  (exists n, Links.netloc_of "https://a.com/docs/q" = Some n /\
             Links.netloc_of "https://a.com/docs/p" = Some n) /\
  exists s' evs,
    step Scenarios.env_links Scenarios.conn_rec "https://a.com/docs"
      (init_state Scenarios.conn_rec) = Some (s', evs) /\
    to_visit s' = ["https://a.com/docs/q"] /\
    exists cur rest, pop (to_visit (init_state Scenarios.conn_rec)) = Some (cur, rest) /\
      contains "https://a.com/docs" "https://a.com/docs/q" = true.
Proof.
  split.
  - assert (Hl : Links.get_internal_links (fun _ _ => None) "https://a.com/docs"
                   "https://a.com/docs/p" [Some "https://a.com/docs/q"] true
                 = Some ["https://a.com/docs/q"]) by reflexivity.
    destruct (proj1 (proj1 scope_containment _ _ _ _ _ _ Hl "https://a.com/docs/q")
                (or_introl eq_refl)) as [h [_ [_ [_ [Hn _]]]]].
    exact Hn.
  - eexists _, _. split; [reflexivity|]. split; [reflexivity|].
    destruct (proj2 scope_containment Scenarios.env_links Scenarios.conn_rec
                "https://a.com/docs" (init_state Scenarios.conn_rec) _ _ eq_refl
                "https://a.com/docs/q" (or_introl eq_refl)) as [H|[cur [rest [Hp [_ Hc]]]]].
    + destruct H as [H|[]]. discriminate H.
    + exists cur, rest. split; [exact Hp|exact Hc].
Defined.

Lemma step_not_none E c base s p :
  pop (to_visit s) = Some p -> step E c base s <> None.
Proof.
  intros Hp. unfold step, session_for. rewrite Hp. destruct p as [cur rest]. cbv zeta.
  repeat (match goal with
          | |- context [match ?x with _ => _ end] =>
              (let a := bool_atom x in destruct a eqn:?)
          end; cbn beta iota delta [andb orb negb]); discriminate.
Qed.

(** ** Claim C8: in sitemap mode with a sitemap listing [[A; B]] the
    frontier is [[A; B]] and the first URL the crawl fetches is [B]. *)
Theorem sitemap_lifo E base A B mint bs fuel :
  sitemap_locs E (_ensure_valid_url base) = Some [A; B] ->
  exists c, WebConnector E base "sitemap" mint bs = Some c /\
    to_visit_list c = [A; B] /\
    first_dispatch (fst (load_from_state E c (S fuel))) = Some B.
Proof.
  intros Hs. unfold WebConnector, extract_urls_from_sitemap. simpl. rewrite Hs. simpl.
  eexists. split; [reflexivity|split; [reflexivity|]].
  unfold load_from_state. simpl.
  set (c := mkConn mint bs false [A; B]).
  destruct (step E c A (init_state c)) as [[s' evs]|] eqn:Hst.
  - destruct (step_dispatched _ _ _ _ _ _ Hst) as [cur [rest [Hp Hd]]].
    simpl in Hp. injection Hp as <- <-.
    destruct (crawl_loop E c A fuel s') as [tr o]. simpl.
    unfold first_dispatch. simpl. rewrite dispatched_app, Hd. reflexivity.
  - exfalso. exact (step_not_none E c A (init_state c) (B, [A]) eq_refl Hst).
Qed.

Lemma sitemap_lifo_witness :
  sitemap_locs (Scenarios.env_of Scenarios.two_pages Scenarios.pdf_plain)
    (_ensure_valid_url "x.com/sitemap.xml") = Some ["https://x.com/a"; "https://x.com/b"] /\
  exists c, WebConnector (Scenarios.env_of Scenarios.two_pages Scenarios.pdf_plain)
              "x.com/sitemap.xml" "sitemap" true 16%Z = Some c /\
    to_visit_list c = ["https://x.com/a"; "https://x.com/b"] /\
    first_dispatch (fst (load_from_state
      (Scenarios.env_of Scenarios.two_pages Scenarios.pdf_plain) c 5)) = Some "https://x.com/b".
Proof.
  split; [reflexivity|].
  exact (sitemap_lifo (Scenarios.env_of Scenarios.two_pages Scenarios.pdf_plain)
           "x.com/sitemap.xml" "https://x.com/a" "https://x.com/b" true 16%Z 4 eq_refl).
Defined.

Lemma step_keeps_docs E c base s s' evs d :
  step E c base s = Some (s', evs) -> In d (doc_batch s) ->
  In d (doc_batch s') \/ In d (emitted evs).
Proof.
  intros Hs Hd.
  destruct (step_shape _ _ _ _ _ _ Hs) as [fresh [new [_ [_ [_ [He _]]]]]].
  assert (Hin : In d (emitted evs ++ doc_batch s')%list)
    by (rewrite He; apply in_or_app; now left).
  apply in_app_or in Hin as [H|H]; [now right|now left].
Qed.

(** A buffered document is in the yielded batches of any run that ends. *)
Lemma loop_flushes E c base fuel s d :
  In d (doc_batch s) -> snd (crawl_loop E c base fuel s) = Done ->
  In d (emitted (fst (crawl_loop E c base fuel s))).
Proof.
  induction fuel as [|f IH] in s |- *; simpl; intros Hd Hdone; [discriminate|].
  destruct (step E c base s) as [[s' evs]|] eqn:Hs.
  - destruct (crawl_loop E c base f s') as [tr o] eqn:Hl. simpl in *.
    rewrite emitted_app. apply in_or_app.
    destruct (step_keeps_docs _ _ _ _ _ _ d Hs Hd) as [H|H]; [right|now left].
    specialize (IH s' H). rewrite Hl in IH. exact (IH Hdone).
  - simpl. unfold final_flush. destruct (doc_batch s) as [|b l]; [destruct Hd|].
    simpl. rewrite app_nil_r. exact Hd.
Qed.

(** ** Claim C7: for an encrypted PDF with a wrong or missing password,
    [read_pdf_file] returns the empty string instead of raising; and when
    the crawl pops such a PDF (it passes no password), it buffers a
    document with empty text and the URL as id and source, which is in the
    yielded batches of every run that ends. *)
Theorem pdf_bad_password_document :
  (forall PR file name pdf_pass d,
     PR file = Some d -> Pdf.is_encrypted d = true -> Pdf.bad_password d pdf_pass ->
     Pdf.read_pdf_file PR file name pdf_pass = Some EmptyString) /\
  (forall E c base s u rest content d,
     pop (to_visit s) = Some (u, rest) -> ~ In u (visited_links s) -> is_pdf u = true ->
     requests_get E u = Some content -> PdfReader E content = Some d ->
     Pdf.is_encrypted d = true -> Pdf.bad_password d None ->
     exists s' evs, step E c base s = Some (s', evs) /\
       doc_batch s' = (doc_batch s ++ [mkDoc u EmptyString (Some u) []])%list /\
       forall fuel, snd (crawl_loop E c base fuel s') = Done ->
         In (mkDoc u EmptyString (Some u) []) (emitted (fst (crawl_loop E c base fuel s')))).
Proof.
  split; [exact PdfFacts.read_pdf_bad_password|].
  intros E c base s u rest content d Hp Hv Hpdf Hget Hrd He Hb.
  apply mem_not_In in Hv.
  pose proof (PdfFacts.read_pdf_bad_password (PdfReader E) content u None d Hrd He Hb) as Hr.
  unfold step. rewrite Hp, Hv, Hpdf, Hget, Hr. cbv zeta.
  eexists _, _. split; [reflexivity|]. split; [reflexivity|].
  intros fuel Hdone. apply loop_flushes; [|exact Hdone].
  simpl. apply in_or_app. right. now left.
Qed.

Lemma pdf_bad_password_document_witness :
  Pdf.read_pdf_file (fun _ => Some Scenarios.pdf_locked) [] "f.pdf" (Some "guess")
  = Some EmptyString /\
  exists s' evs,
    step (Scenarios.env_of [] Scenarios.pdf_locked) Scenarios.conn_locked "https://x.com/f.pdf"
      (init_state Scenarios.conn_locked) = Some (s', evs) /\
    doc_batch s' = [mkDoc "https://x.com/f.pdf" EmptyString (Some "https://x.com/f.pdf") []].
Proof.
  split.
  - exact (proj1 pdf_bad_password_document (fun _ => Some Scenarios.pdf_locked) [] "f.pdf"
             (Some "guess") Scenarios.pdf_locked eq_refl eq_refl (or_intror eq_refl)).
  - destruct (proj2 pdf_bad_password_document (Scenarios.env_of [] Scenarios.pdf_locked)
                Scenarios.conn_locked "https://x.com/f.pdf" (init_state Scenarios.conn_locked)
                "https://x.com/f.pdf" [] [] Scenarios.pdf_locked eq_refl (fun H => H)
                eq_refl eq_refl eq_refl eq_refl eq_refl) as [s' [evs [H1 [H2 _]]]].
    exists s', evs. split; [exact H1|exact H2].
Defined.

(** A render failure drops only the popped URL: the rest of the frontier is
    kept, the session that failed is stopped and a restart is due, so the
    next fetch uses the session started for it. *)
Lemma render_failure_isolated E c base s cur rest :
  pop (to_visit s) = Some (cur, rest) -> ~ In cur (visited_links s) -> is_pdf cur = false ->
  fail_at (render E (session_for s) cur) = FailGoto ->
  exists s' evs, step E c base s = Some (s', evs) /\
    to_visit s' = rest /\ restart_playwright s' = true /\ session_for s' = starts s' /\
    In (EStop (session_for s)) evs.
Proof.
  intros Hp Hv Hpdf Hf. apply mem_not_In in Hv.
  unfold step. rewrite Hp, Hv, Hpdf, Hf. cbv zeta.
  eexists _, _. split; [reflexivity|].
  split; [reflexivity|split; [reflexivity|split; [reflexivity|]]].
  destruct (restart_playwright s); simpl; tauto.
Qed.

(** ** Claim C2 (code bug): with batch size 1 and a sitemap of two PDFs that
    are both read, the two documents come out as one batch of two: the
    [continue] of the PDF branch skips the batch-size check. *)
Theorem pdf_batch_overflow :
  exists c, WebConnector (Scenarios.env_of Scenarios.two_pdfs Scenarios.pdf_plain)
              "x.com/sitemap.xml" "sitemap" true 1%Z = Some c /\
    snd (load_from_state (Scenarios.env_of Scenarios.two_pdfs Scenarios.pdf_plain) c 10) = Done /\
    map (map doc_id)
      (batches (fst (load_from_state (Scenarios.env_of Scenarios.two_pdfs Scenarios.pdf_plain) c 10)))
    = [["https://x.com/b.pdf"; "https://x.com/a.pdf"]].
Proof. eexists. split; [reflexivity|]. split; vm_compute; reflexivity. Qed.

(** ** Claim C3 (code bug): a sitemap with no [<loc>] constructs a connector
    with an empty frontier, and [load_from_state] then raises at
    [to_visit[0]] before any page is visited. *)
Theorem empty_frontier_aborts fuel :
  exists c, WebConnector (Scenarios.env_of [] Scenarios.pdf_plain)
              "x.com/sitemap.xml" "sitemap" true 16%Z = Some c /\
    to_visit_list c = [] /\
    load_from_state (Scenarios.env_of [] Scenarios.pdf_plain) c fuel = ([], Aborted).
Proof. eexists. split; [reflexivity|]. split; reflexivity. Qed.

End CrawlFacts.

(** * Shape of the normalized text *)
Module TextFacts.
Import Py Normalizer Shapes.

Lemma str_app_assoc (a b c : string) : a ++ b ++ c = (a ++ b) ++ c.
Proof. induction a as [|x a IH]; simpl; [reflexivity|now rewrite IH]. Qed.

Lemma str_app_nil_r (a : string) : a ++ EmptyString = a.
Proof. induction a as [|x a IH]; simpl; [reflexivity|now rewrite IH]. Qed.

Lemma rev_str_app a b : rev_str (a ++ b) = rev_str b ++ rev_str a.
Proof.
  induction a as [|x a IH]; simpl.
  - now rewrite str_app_nil_r.
  - rewrite IH. now rewrite str_app_assoc.
Qed.

Lemma rev_str_involutive s : rev_str (rev_str s) = s.
Proof. induction s as [|x s IH]; simpl; [reflexivity|]. now rewrite rev_str_app, IH. Qed.

Lemma lstrip_suffix s : exists p, s = p ++ lstrip s.
Proof.
  induction s as [|x s [p Hp]]; simpl.
  - now exists EmptyString.
  - destruct (isspace x).
    + exists (String x p). simpl. now rewrite <- Hp.
    + now exists EmptyString.
Qed.

Lemma strip_infix s : exists p q, s = p ++ strip s ++ q.
Proof.
  unfold strip. destruct (lstrip_suffix s) as [p Hp].
  destruct (lstrip_suffix (rev_str (lstrip s))) as [q Hq].
  exists p, (rev_str q).
  rewrite <- rev_str_app, <- Hq, rev_str_involutive. exact Hp.
Qed.

Lemma lstrip_first s : first_is_space (lstrip s) = false.
Proof.
  induction s as [|x s IH]; simpl; [reflexivity|].
  destruct (isspace x) eqn:E; [exact IH|exact E].
Qed.

Lemma lstrip_snoc t c : isspace c = false ->
  exists w, lstrip (t ++ String c EmptyString) = w ++ String c EmptyString.
Proof.
  intros Hc. induction t as [|x t [w Hw]]; simpl.
  - rewrite Hc. now exists EmptyString.
  - destruct (isspace x).
    + now exists w.
    + now exists (String x t).
Qed.

Lemma last_is_space_snoc w c : last_is_space (w ++ String c EmptyString) = isspace c.
Proof. induction w as [|x w IH]; [reflexivity|]. simpl. destruct w; [reflexivity|exact IH]. Qed.

Lemma strip_ends s : first_is_space (strip s) = false /\ last_is_space (strip s) = false.
Proof.
  unfold strip. split.
  - pose proof (lstrip_first s) as H. destruct (lstrip s) as [|c y] eqn:Ey; [reflexivity|].
    simpl in H |- *. destruct (lstrip_snoc (rev_str y) c H) as [w Hw]. rewrite Hw.
    rewrite rev_str_app. simpl. exact H.
  - pose proof (lstrip_first (rev_str (lstrip s))) as H.
    destruct (lstrip (rev_str (lstrip s))) as [|c z]; [reflexivity|].
    simpl. rewrite last_is_space_snoc. exact H.
Qed.

Lemma adj_ok_cons f a r :
  adj_ok f (String a r) =
  (match r with String b _ => f a b | EmptyString => true end) && adj_ok f r.
Proof. destruct r; reflexivity. Qed.

Lemma adj_ok_app f a b : adj_ok f (a ++ b) = true -> adj_ok f a = true /\ adj_ok f b = true.
Proof.
  induction a as [|x a IH]; intros H; [split; [reflexivity|exact H]|].
  change (adj_ok f (String x (a ++ b)) = true) in H.
  rewrite adj_ok_cons in H |- *. apply andb_prop in H as [H1 H2].
  destruct (IH H2) as [Ha Hb]. split; [|exact Hb].
  rewrite Ha, andb_true_r. destruct a; [destruct b|]; simpl in *; auto.
Qed.

Lemma all_chars_app p a b :
  Links.all_chars p (a ++ b) = Links.all_chars p a && Links.all_chars p b.
Proof. induction a as [|x a IH]; simpl; [reflexivity|]. now rewrite IH, andb_assoc. Qed.

Lemma strip_keeps f s : adj_ok f s = true -> adj_ok f (strip s) = true.
Proof.
  destruct (strip_infix s) as [p [q Hs]]. rewrite Hs at 1. intros H.
  apply adj_ok_app in H as [_ H]. apply adj_ok_app in H as [H _]. exact H.
Qed.

Lemma strip_keeps_chars p s :
  Links.all_chars p s = true -> Links.all_chars p (strip s) = true.
Proof.
  destruct (strip_infix s) as [a [b Hs]]. rewrite Hs at 1.
  rewrite !all_chars_app. intros H. apply andb_prop in H as [_ H].
  apply andb_prop in H as [H _]. exact H.
Qed.

(** A pair whose left character is not a space passes both space tests. *)
Lemma adj_nonspace f a r :
  (forall b, is_sp a = false -> f a b = true) -> is_sp a = false ->
  adj_ok f (String a r) = adj_ok f r.
Proof. intros Hf Ha. rewrite adj_ok_cons. destruct r; [reflexivity|]. now rewrite Hf. Qed.

Lemma nds_nonspace a b : is_sp a = false -> no_double_space a b = true.
Proof. intros H. unfold no_double_space. now rewrite H. Qed.

Lemma nsn_nonspace a b : is_sp a = false -> no_space_before_newline a b = true.
Proof. intros H. unfold no_space_before_newline. now rewrite H. Qed.

Lemma nl_not_sp c : is_nl c = true -> is_sp c = false.
Proof.
  unfold is_nl, is_sp. intros H. apply orb_prop in H as [H|H];
    apply Nat.eqb_eq in H; rewrite H; reflexivity.
Qed.

Lemma collapse_shape s b :
  adj_ok no_double_space (collapse_spaces b s) = true /\
  (b = true -> startswith_space (collapse_spaces b s) = false).
Proof.
  induction s as [|c r IH] in b |- *; simpl; [split; reflexivity|].
  destruct (is_sp c) eqn:Hc.
  - destruct b.
    + exact (IH true).
    + split; [|discriminate]. destruct (IH true) as [H1 H2].
      rewrite adj_ok_cons, H1, andb_true_r.
      specialize (H2 eq_refl). destruct (collapse_spaces true r) as [|d x]; [reflexivity|].
      simpl in H2. unfold no_double_space. now rewrite H2, andb_false_r.
  - split; [|intros _; exact Hc].
    rewrite (adj_nonspace _ _ _ (nds_nonspace c) Hc). apply IH.
Qed.

Lemma spaces_adj f p : f " "%char " "%char = true -> adj_ok f (spaces p) = true.
Proof.
  intros Hf. induction p as [|p IH]; [reflexivity|].
  simpl spaces. rewrite adj_ok_cons, IH, andb_true_r. destruct p; [reflexivity|exact Hf].
Qed.

Lemma spaces_then f p c x :
  f " "%char " "%char = true -> f " "%char c = true -> adj_ok f (String c x) = true ->
  adj_ok f (spaces p ++ String c x) = true.
Proof.
  intros Hss Hsc Hx. induction p as [|p IH]; [exact Hx|].
  change (adj_ok f (String " "%char (spaces p ++ String c x)) = true).
  rewrite adj_ok_cons, IH, andb_true_r.
  destruct p; [exact Hsc|exact Hss].
Qed.

Lemma trailing_no_space_newline s p :
  adj_ok no_space_before_newline (trailing_spaces p s) = true.
Proof.
  induction s as [|c r IH] in p |- *; cbn [trailing_spaces].
  - apply spaces_adj. reflexivity.
  - destruct (is_sp c) eqn:Hs; [apply IH|].
    destruct (is_nl c) eqn:Hn.
    + destruct p; unfold NL, chr; cbn [String.append];
      change (ascii_of_nat 10) with "010"%char.
      * rewrite (adj_nonspace _ _ _ (nsn_nonspace c) Hs). apply IH.
      * rewrite (adj_nonspace _ "010"%char _ (nsn_nonspace "010"%char) eq_refl). apply IH.
    + apply spaces_then; [reflexivity|unfold no_space_before_newline; simpl; now rewrite Hn|].
      rewrite (adj_nonspace _ _ _ (nsn_nonspace c) Hs). apply IH.
Qed.

Lemma trailing_no_double_space s p :
  (p <= 1)%nat -> (p = 1%nat -> startswith_space s = false) ->
  adj_ok no_double_space s = true ->
  adj_ok no_double_space (trailing_spaces p s) = true.
Proof.
  induction s as [|c r IH] in p |- *; cbn [trailing_spaces]; intros Hp H1 Hs.
  - destruct p as [|[|]]; reflexivity || lia.
  - rewrite adj_ok_cons in Hs. apply andb_prop in Hs as [Hcr Hr].
    destruct (is_sp c) eqn:Hc.
    + destruct p as [|p]; [|destruct p; [|lia]].
      2: { specialize (H1 eq_refl). simpl in H1. congruence. }
      apply IH; [lia| |exact Hr]. intros _.
      destruct r as [|d r]; [reflexivity|]. simpl.
      unfold no_double_space in Hcr. rewrite Hc in Hcr. simpl in Hcr.
      now destruct (is_sp d).
    + destruct (is_nl c) eqn:Hn.
      * destruct p; unfold NL, chr; cbn [String.append];
      change (ascii_of_nat 10) with "010"%char.
        -- rewrite (adj_nonspace _ _ _ (nds_nonspace c) Hc). apply IH; auto; lia.
        -- rewrite (adj_nonspace _ "010"%char _ (nds_nonspace "010"%char) eq_refl). apply IH; auto; lia.
      * destruct p as [|[|]]; try lia; cbn [spaces String.append].
        -- rewrite (adj_nonspace _ _ _ (nds_nonspace c) Hc). apply IH; auto; lia.
        -- rewrite adj_ok_cons. unfold no_double_space at 1. cbn [is_sp nat_of_ascii].
           rewrite Hc. cbn [andb negb].
           rewrite (adj_nonspace _ _ _ (nds_nonspace c) Hc). apply IH; auto; lia.
Qed.

Lemma runs_no_double_newline s b :
  adj_ok no_double_newline (sub_newline_runs NL b s) = true /\
  (b = true -> first_nl (sub_newline_runs NL b s) = false).
Proof.
  induction s as [|c r IH] in b |- *; simpl; [split; reflexivity|].
  destruct (is_nl c) eqn:Hc.
  - destruct b; [exact (IH true)|]. split; [|discriminate].
    destruct (IH true) as [H1 H2]. rewrite adj_ok_cons, H1, andb_true_r.
    specialize (H2 eq_refl). destruct (sub_newline_runs NL true r) as [|d x]; [reflexivity|].
    simpl in H2. unfold no_double_newline. now rewrite H2, andb_false_r.
  - split; [|intros _; exact Hc]. destruct (IH false) as [H1 _].
    rewrite adj_ok_cons, H1, andb_true_r.
    destruct (sub_newline_runs NL false r); [reflexivity|].
    unfold no_double_newline. now rewrite Hc.
Qed.

Lemma runs_keep f s b :
  (forall x, f "010"%char x = true) ->
  (forall a d, is_nl d = true -> f a d = f a "010"%char) ->
  adj_ok f s = true -> adj_ok f (sub_newline_runs NL b s) = true.
Proof.
  intros Hnl Hresp. induction s as [|c r IH] in b |- *; cbn [sub_newline_runs]; intros H;
    [reflexivity|].
  rewrite adj_ok_cons in H. apply andb_prop in H as [Hcr Hr].
  destruct (is_nl c) eqn:Hc.
  - destruct b; [now apply IH|].
    change (adj_ok f (String "010"%char (sub_newline_runs NL true r)) = true).
    rewrite adj_ok_cons, (IH true Hr), andb_true_r.
    destruct (sub_newline_runs NL true r); [reflexivity|apply Hnl].
  - rewrite adj_ok_cons, (IH false Hr), andb_true_r.
    destruct r as [|d r]; [reflexivity|]. simpl.
    destruct (is_nl d) eqn:Hd; simpl.
    + change (ascii_of_nat 10) with "010"%char. rewrite <- (Hresp c d Hd). exact Hcr.
    + exact Hcr.
Qed.

Lemma runs_no_cr s b :
  Links.all_chars (fun c => negb (is_cr c)) (sub_newline_runs NL b s) = true.
Proof.
  induction s as [|c r IH] in b |- *; simpl; [reflexivity|].
  destruct (is_nl c) eqn:Hc.
  - destruct b; [apply IH|]. simpl. apply IH.
  - simpl. rewrite IH, andb_true_r. unfold is_nl in Hc. unfold is_cr.
    apply orb_false_elim in Hc as [_ Hc]. now rewrite Hc.
Qed.

(** ** Extra: the text the normalizer returns, and so the text of every
    page [format_document_soup] formats, has no whitespace at either end, no
    carriage return, no two spaces or two newlines in a row and no space
    before a newline. *)
Theorem normalizer_output_normalized :
  (forall document, normalized (strip_excessive_newlines_and_spaces document) = true) /\
  (forall soup sep, normalized (format_document_soup soup sep) = true).
Proof.
  assert (H : forall document, normalized (strip_excessive_newlines_and_spaces document) = true).
  { intros document. unfold normalized, strip_excessive_newlines_and_spaces.
    destruct (strip_ends (sub_newline_runs NL false
               (trailing_spaces 0 (collapse_spaces false document)))) as [E1 E2].
    set (t := trailing_spaces 0 (collapse_spaces false document)) in *.
    assert (A1 : adj_ok no_space_before_newline (sub_newline_runs NL false t) = true).
    { apply runs_keep; [reflexivity| |apply trailing_no_space_newline].
      intros a d Hd. unfold no_space_before_newline. now rewrite Hd. }
    assert (A2 : adj_ok no_double_space (sub_newline_runs NL false t) = true).
    { apply runs_keep; [reflexivity| |].
      - intros a d Hd. unfold no_double_space. now rewrite (nl_not_sp d Hd).
      - apply trailing_no_double_space; [lia|discriminate|apply collapse_shape]. }
    rewrite E1, E2, (strip_keeps _ _ A1), (strip_keeps _ _ A2),
      (strip_keeps _ _ (proj1 (runs_no_double_newline t false))),
      (strip_keeps_chars _ _ (runs_no_cr t false)).
    reflexivity. }
  split; [exact H|]. intros soup sep. apply H.
Qed.

Lemma runs_to_space s b :
  Links.all_chars (fun c => negb (is_nl c)) (sub_newline_runs " " b s) = true /\
  (Links.all_chars (fun c => negb (is_nl c)) s = true -> sub_newline_runs " " b s = s).
Proof.
  induction s as [|c r IH] in b |- *; cbn [sub_newline_runs]; [split; reflexivity|].
  destruct (is_nl c) eqn:Hc.
  - split; [|simpl; rewrite Hc; discriminate].
    destruct b; [apply IH|]. apply IH.
  - destruct (IH false) as [H1 H2]. simpl. rewrite Hc, H1. split; [reflexivity|].
    intros H. now rewrite H2.
Qed.

(** ** Extra: [strip_newlines] leaves no newline or carriage return, and
    leaves a text without one unchanged. *)
Theorem strip_newlines_spec s :
  Links.all_chars (fun c => negb (is_nl c)) (strip_newlines s) = true /\
  (Links.all_chars (fun c => negb (is_nl c)) s = true -> strip_newlines s = s).
Proof. apply runs_to_space. Qed.

Lemma strip_newlines_spec_witness :
  Links.all_chars (fun c => negb (is_nl c)) "a b" = true /\ strip_newlines "a b" = "a b".
Proof. split; [reflexivity|]. apply (proj2 (strip_newlines_spec "a b")). reflexivity. Defined.

End TextFacts.

Module HtmlFacts.
Import Py Html.

Lemma hnode_deep_ind (P : hnode -> Prop) :
  (forall s, P (HString s)) -> (forall s, P (HComment s)) -> (forall s, P (HDoctype s)) ->
  (forall nm cl h cs, Forall P cs -> P (HTag nm cl h cs)) -> forall n, P n.
Proof.
  intros H1 H2 H3 H4. fix IH 1. intros [s|s|s|nm cl h cs]; [apply H1|apply H2|apply H3|].
  apply H4. revert cs. fix IHl 1. intros [|c cs]; constructor; [apply IH|apply IHl].
Qed.

Lemma extract_all_head p n : same_head (extract_all p n) n.
Proof. intros f. destruct n; reflexivity. Qed.

Lemma hdesc_tag_app nm cl h A B :
  hdescendants (HTag nm cl h (A ++ B)) =
  (hdescendants (HTag nm cl h A) ++ hdescendants (HTag nm cl h B))%list.
Proof. simpl. apply flat_map_app. Qed.

Lemma extract_all_app p nm cl h A B :
  extract_all p (HTag nm cl h (A ++ B)) =
  HTag nm cl h (flat_map (fun c => if p c then [] else [extract_all p c]) A ++
                flat_map (fun c => if p c then [] else [extract_all p c]) B)%list.
Proof. simpl. now rewrite flat_map_app. Qed.

Lemma desc_extract_all g n d :
  In d (hdescendants (extract_all (tag_is g) n)) ->
  tag_is g d = false /\ exists d0, In d0 (hdescendants n) /\ same_head d0 d.
Proof.
  revert d. induction n as [s|s|s|nm cl h cs IH] using hnode_deep_ind; simpl;
    try (intros d []).
  intros d Hd. apply in_flat_map in Hd as [e [He Hd]].
  apply in_flat_map in He as [c [Hc He]].
  destruct (tag_is g c) eqn:Hg; [destruct He|].
  destruct He as [<-|[]].
  destruct Hd as [<-|Hd].
  - split; [rewrite (extract_all_head _ c); exact Hg|].
    exists c. split; [apply in_flat_map; exists c; split; [exact Hc|now left]|].
    intros f. symmetry. apply extract_all_head.
  - rewrite Forall_forall in IH. destruct (IH c Hc d Hd) as [H1 [d0 [H2 H3]]].
    split; [exact H1|]. exists d0. split; [|exact H3].
    apply in_flat_map. exists c. split; [exact Hc|now right].
Qed.

Lemma desc_fold (G : string -> string -> list string -> bool) L n d :
  In d (hdescendants (fold_left (fun s u => extract_all (tag_is (G u)) s) L n)) ->
  (forall u, In u L -> tag_is (G u) d = false) /\
  exists d0, In d0 (hdescendants n) /\ same_head d0 d.
Proof.
  induction L as [|u L IH] in n |- *; simpl; intros Hd.
  - split; [intros _ []|]. exists d. split; [exact Hd|intros f; reflexivity].
  - destruct (IH _ Hd) as [H1 [d1 [Hd1 Hs1]]].
    destruct (desc_extract_all (G u) n d1 Hd1) as [Hg [d0 [Hd0 Hs0]]].
    split.
    + intros v [<-|Hv]; [rewrite <- Hs1; exact Hg|exact (H1 v Hv)].
    + exists d0. split; [exact Hd0|]. intros f. now rewrite Hs0, Hs1.
Qed.


(** No element of the soup [web_html_cleanup] leaves (the soup
    it formats and the crawler then searches for metadata) has one of the
    unwanted classes ([sidebar], [footer], and [sticky], [hidden] under the
    Mintlify cleanup) or is a [nav], [footer], [meta], [script], [style],
    [symbol], [aside] or additionally discarded tag. *)
Theorem cleanup_removes_unwanted soup mint extra d :
  In d (hdescendants (snd (web_html_cleanup soup mint extra))) ->
  unwanted mint extra d = false.
Proof.
  unfold web_html_cleanup.
  match goal with |- context [let '(_, _) := ?m in _] => destruct m as [title soup1] end.
  cbv zeta; cbn [snd]; intros Hd.
  destruct (desc_fold (fun t nm _ => String.eqb nm t) extra _ d Hd) as [He [d1 [Hd1 S1]]].
  destruct (desc_fold (fun t nm _ => String.eqb nm t) undesired_tags _ d1 Hd1)
    as [Hu [d2 [Hd2 S2]]].
  destruct (desc_fold (fun u _ cl => existsb (String.eqb u) cl) (unwanted_classes mint) _ d2 Hd2)
    as [Hc _].
  assert (Hs : forall f, tag_is f d = tag_is f d2) by (intros f; now rewrite <- S1, <- S2).
  destruct d as [s|s|s|nm cl h cs]; try reflexivity.
  unfold unwanted, tag_is. apply orb_false_intro.
  - destruct (existsb _ _) eqn:E; [|reflexivity].
    apply existsb_exists in E as [u [Hin Hcl]].
    specialize (Hc u Hin). rewrite <- Hs in Hc. simpl in Hc. congruence.
  - unfold Normalizer.name_in. destruct (existsb _ _) eqn:E; [|reflexivity].
    apply existsb_exists in E as [t [Hin Ht]]. apply in_app_or in Hin as [Hin|Hin].
    + specialize (Hu t Hin). rewrite S1 in Hu. simpl in Hu. congruence.
    + specialize (He t Hin). simpl in He. congruence.
Qed.

Lemma find_none_false {A} (p : A -> bool) l :
  Forall (fun d => p d = false) l -> find p l = None.
Proof. induction 1 as [|a l Ha _ IH]; simpl; [reflexivity|]. now rewrite Ha. Qed.

Lemma find_app {A} (p : A -> bool) l1 l2 :
  find p (l1 ++ l2) = match find p l1 with Some x => Some x | None => find p l2 end.
Proof. induction l1 as [|a l1 IH]; simpl; [reflexivity|]. destruct (p a); [reflexivity|exact IH]. Qed.

Lemma extract_first_none p n :
  (forall d, In d (hdescendants n) -> p d = false) -> extract_first p n = None.
Proof.
  induction n as [s|s|s|nm cl h cs IH] using hnode_deep_ind; intros Hn; try reflexivity.
  simpl. enough (E : first_in (extract_first p) p cs = None) by (rewrite E; reflexivity).
  induction cs as [|c cs IHcs]; [reflexivity|]. inversion IH as [|? ? Hc Hcs]; subst.
  simpl. rewrite (Hn c (or_introl eq_refl)).
  rewrite Hc by (intros d Hd; apply Hn; simpl; right; apply in_or_app; now left).
  rewrite IHcs; [reflexivity|exact Hcs|].
  intros d Hd. apply Hn. simpl. right. apply in_or_app. now right.
Qed.

Lemma first_in_app f p A B :
  first_in f p (A ++ B) =
  match first_in f p A with
  | Some (A', t) => Some (A' ++ B, t)
  | None => option_map (fun '(B', t) => (A ++ B', t)) (first_in f p B)
  end%list.
Proof.
  induction A as [|a A IH]; simpl.
  - destruct (first_in f p B) as [[? ?]|]; reflexivity.
  - destruct (p a); [reflexivity|]. destruct (f a) as [[c' t]|]; [reflexivity|].
    rewrite IH. destruct (first_in f p A) as [[A' t]|]; [reflexivity|].
    destruct (first_in f p B) as [[? ?]|]; reflexivity.
Qed.

(** The title step of [web_html_cleanup] does not see a child without a
    [title] element. *)
Lemma title_step nm cl h pre x post :
  Forall (fun d => named "title" d = false) (x :: hdescendants x) ->
  let ts := fun soup =>
    match find (named "title") (hdescendants soup) with
    | Some title_tag =>
        if negb (String.eqb (get_text title_tag) EmptyString)
        then (Some (get_text title_tag),
              match extract_first (named "title") soup with
              | Some (soup', _) => soup'
              | None => soup
              end)
        else (None, soup)
    | None => (None, soup)
    end in
  exists t P Q,
    ts (HTag nm cl h (pre ++ x :: post)) = (t, HTag nm cl h (P ++ x :: Q)) /\
    ts (HTag nm cl h (pre ++ post)) = (t, HTag nm cl h (P ++ Q)).
Proof.
  intros Ht ts. rewrite Forall_forall in Ht.
  assert (Hx : forall d, In d (hdescendants x) -> named "title" d = false)
    by (intros d Hd; apply Ht; now right).
  assert (Hnx : find (named "title") (x :: hdescendants x) = None).
  { apply find_none_false. now apply Forall_forall. }
  assert (Hf : find (named "title") (hdescendants (HTag nm cl h (pre ++ x :: post))) =
               find (named "title") (hdescendants (HTag nm cl h (pre ++ post)))).
  { rewrite !hdesc_tag_app, !find_app.
    destruct (find _ (hdescendants (HTag nm cl h pre))); [reflexivity|].
    change (hdescendants (HTag nm cl h (x :: post)))
      with ((x :: hdescendants x) ++ hdescendants (HTag nm cl h post))%list.
    rewrite find_app, Hnx. reflexivity. }
  assert (He : exists P Q,
    match extract_first (named "title") (HTag nm cl h (pre ++ x :: post)) with
    | Some (soup', _) => soup' | None => HTag nm cl h (pre ++ x :: post) end
      = HTag nm cl h (P ++ x :: Q) /\
    match extract_first (named "title") (HTag nm cl h (pre ++ post)) with
    | Some (soup', _) => soup' | None => HTag nm cl h (pre ++ post) end
      = HTag nm cl h (P ++ Q)).
  { cbn [extract_first]. rewrite !first_in_app.
    destruct (first_in (extract_first (named "title")) (named "title") pre) as [[A' t]|].
    - exists A', post. split; reflexivity.
    - cbn [first_in]. rewrite (Ht x (or_introl eq_refl)).
      rewrite (extract_first_none _ x Hx).
      destruct (first_in (extract_first (named "title")) (named "title") post) as [[B' t]|].
      + exists pre, B'. split; reflexivity.
      + exists pre, post. split; reflexivity. }
  destruct He as [P [Q [E1 E0]]].
  unfold ts. rewrite Hf.
  destruct (find (named "title") (hdescendants (HTag nm cl h (pre ++ post)))) as [tt|].
  - destruct (negb _).
    + exists (Some (get_text tt)), P, Q. rewrite E1, E0. split; reflexivity.
    + exists None, pre, post. split; reflexivity.
  - exists None, pre, post. split; reflexivity.
Qed.

(** One pass of discards over a list of filters, on two trees that differ
    by one child: either the child goes and the trees become equal, or it
    stays (changed inside, its head kept) and no filter matched it. *)
Lemma fold_split (F : string -> hnode -> bool)
  (HF : forall u a b, same_head a b -> F u a = F u b)
  L x nm cl h P y Q :
  same_head y x ->
  fold_left (fun s u => extract_all (F u) s) L (HTag nm cl h (P ++ y :: Q)) =
  fold_left (fun s u => extract_all (F u) s) L (HTag nm cl h (P ++ Q)) \/
  (exists P' y' Q',
    fold_left (fun s u => extract_all (F u) s) L (HTag nm cl h (P ++ y :: Q)) =
      HTag nm cl h (P' ++ y' :: Q') /\
    fold_left (fun s u => extract_all (F u) s) L (HTag nm cl h (P ++ Q)) =
      HTag nm cl h (P' ++ Q') /\
    same_head y' x /\ (forall u, In u L -> F u x = false)).
Proof.
  revert P y Q. induction L as [|u L IH]; intros P y Q Hy.
  - right. exists P, y, Q. repeat split; [assumption|]. intros u [].
  - cbn [fold_left]. rewrite !extract_all_app.
    change (flat_map (fun c => if F u c then [] else [extract_all (F u) c]) (y :: Q))
      with ((if F u y then [] else [extract_all (F u) y])
            ++ flat_map (fun c => if F u c then [] else [extract_all (F u) c]) Q)%list.
    destruct (F u y) eqn:Fy.
    + left. reflexivity.
    + destruct (IH (flat_map (fun c => if F u c then [] else [extract_all (F u) c]) P)
                  (extract_all (F u) y)
                  (flat_map (fun c => if F u c then [] else [extract_all (F u) c]) Q))
        as [Hl | [P' [y' [Q' [A [B [C D]]]]]]].
      * intros g. rewrite extract_all_head. apply Hy.
      * left. exact Hl.
      * right. exists P', y', Q'. repeat split; try assumption.
        intros v [<-|Hv]; [|now apply D].
        rewrite <- (HF u y x Hy). exact Fy.
Qed.

(** An element the cleanup discards, with no [title] in it, leaves no
    trace in [web_html_cleanup]: the result is the one for the tree without
    it.  In [load_from_state] only its anchors remain, read before the
    cleanup. *)
Theorem unwanted_child_invisible nm cl h pre x post mint final f :
  unwanted mint [] x = true ->
  Forall (fun d => named "title" d = false) (x :: hdescendants x) ->
  web_html_cleanup (HTag nm cl h (pre ++ x :: post)) mint [] =
    web_html_cleanup (HTag nm cl h (pre ++ post)) mint [] /\
  page_of final (HTag nm cl h (pre ++ x :: post)) mint f =
    (let p := page_of final (HTag nm cl h (pre ++ post)) mint f in
     Crawl.mkPage (Crawl.final_url p)
       (map href_of (filter (named "a") (hdescendants (HTag nm cl h pre))) ++
        map href_of (filter (named "a") (x :: hdescendants x)) ++
        map href_of (filter (named "a") (hdescendants (HTag nm cl h post))))%list
       (Crawl.cleaned_text p) (Crawl.title p) (Crawl.tag_texts p) (Crawl.fail_at p)).
Proof.
  intros Hx Ht.
  assert (H1 : web_html_cleanup (HTag nm cl h (pre ++ x :: post)) mint [] =
               web_html_cleanup (HTag nm cl h (pre ++ post)) mint []).
  { pose proof (title_step nm cl h pre x post Ht) as T. cbv beta zeta in T.
    destruct T as [t [P [Q [E1 E0]]]].
    unfold web_html_cleanup. rewrite E1, E0. cbv beta iota zeta.
    assert (HFc : forall u a b, same_head a b -> has_class u a = has_class u b)
      by (intros u a b Hab; exact (Hab _)).
    assert (HFn : forall u a b, same_head a b -> named u a = named u b)
      by (intros u a b Hab; exact (Hab _)).
    destruct (fold_split has_class HFc (unwanted_classes mint) x nm cl h P x Q (fun g => eq_refl))
      as [L1 | [P1 [y1 [Q1 [A1 [B1 [C1 D1]]]]]]].
    { rewrite L1. reflexivity. }
    rewrite A1, B1.
    destruct (fold_split named HFn undesired_tags x nm cl h P1 y1 Q1 C1)
      as [L2 | [P2 [y2 [Q2 [A2 [B2 [C2 D2]]]]]]].
    { rewrite L2. reflexivity. }
    exfalso. destruct x as [| | |xn xc xh xs]; try discriminate Hx.
    unfold unwanted, tag_is in Hx. apply orb_true_iff in Hx as [Hc|Hn].
    - apply existsb_exists in Hc as [u [Hu Hc]].
      specialize (D1 u Hu). change (existsb (String.eqb u) xc = false) in D1. congruence.
    - unfold Normalizer.name_in in Hn. rewrite app_nil_r in Hn.
      apply existsb_exists in Hn as [u [Hu Hn]]. apply String.eqb_eq in Hn. subst u.
      specialize (D2 xn Hu). change (String.eqb xn xn = false) in D2.
      rewrite String.eqb_refl in D2. discriminate D2. }
  split; [exact H1|].
  unfold page_of. rewrite H1.
  destruct (web_html_cleanup (HTag nm cl h (pre ++ post)) mint []) as [ph s'].
  cbv zeta. cbn [Crawl.final_url Crawl.cleaned_text Crawl.title Crawl.tag_texts Crawl.fail_at].
  f_equal.
  rewrite !hdesc_tag_app.
  change (hdescendants (HTag nm cl h (x :: post)))
    with ((x :: hdescendants x) ++ hdescendants (HTag nm cl h post))%list.
  rewrite !filter_app, !map_app. reflexivity.
Qed.

Lemma cleanup_removes_unwanted_witness :
  In (HTag "p" [] None [HString "hi"])
     (hdescendants (snd (web_html_cleanup
        (HTag "body" [] None [HTag "p" [] None [HString "hi"]; HTag "nav" [] None []]) false [])))
  /\ unwanted false [] (HTag "p" [] None [HString "hi"]) = false.
Proof.
  split; [vm_compute; left; reflexivity|].
  apply (cleanup_removes_unwanted
           (HTag "body" [] None [HTag "p" [] None [HString "hi"]; HTag "nav" [] None []]) false []).
  vm_compute. left. reflexivity.
Defined.

Lemma unwanted_child_invisible_witness :
  let x := HTag "nav" [] None
             [HTag "a" [] (Some "/l") [HString "link"];
              HTag "div" ["academy-tag-passive"; "w-dyn-item"] None [HString "t"]] in
  unwanted false [] x = true /\
  Forall (fun d => named "title" d = false) (x :: hdescendants x) /\
  web_html_cleanup (HTag "body" [] None ([HTag "p" [] None [HString "x"]] ++ x ::
                      [HTag "title" [] None [HString "T"]])) false [] =
    web_html_cleanup (HTag "body" [] None ([HTag "p" [] None [HString "x"]] ++
                      [HTag "title" [] None [HString "T"]])) false [] /\
  page_of "u" (HTag "body" [] None ([HTag "p" [] None [HString "x"]] ++ x ::
                 [HTag "title" [] None [HString "T"]])) false Crawl.NoFail =
    (let p := page_of "u" (HTag "body" [] None ([HTag "p" [] None [HString "x"]] ++
                 [HTag "title" [] None [HString "T"]])) false Crawl.NoFail in
     Crawl.mkPage (Crawl.final_url p)
       (map href_of (filter (named "a") (hdescendants (HTag "body" [] None [HTag "p" [] None [HString "x"]]))) ++
        map href_of (filter (named "a") (x :: hdescendants x)) ++
        map href_of (filter (named "a") (hdescendants (HTag "body" [] None [HTag "title" [] None [HString "T"]]))))%list
       (Crawl.cleaned_text p) (Crawl.title p) (Crawl.tag_texts p) (Crawl.fail_at p)).
Proof.
  intros x. split; [reflexivity|]. split; [repeat constructor|].
  apply unwanted_child_invisible; [reflexivity|repeat constructor].
Defined.

End HtmlFacts.

Module ZipFacts.
Import Py Zip.

Lemma find_unique_name L zi :
  NoDup (map filename L) -> In zi L ->
  find (fun z => String.eqb (filename z) (filename zi)) (rev L) = Some zi.
Proof.
  intros Hnd Hin.
  destruct (find (fun z => String.eqb (filename z) (filename zi)) (rev L)) as [z|] eqn:Hf.
  - apply find_some in Hf as [Hz Heq]. apply String.eqb_eq in Heq. apply in_rev in Hz.
    f_equal. induction L as [|a L IH]; [destruct Hin|].
    simpl in Hnd. inversion Hnd as [|? ? Hnot Hnd']; subst.
    destruct Hin as [<-|Hin], Hz as [<-|Hz]; try reflexivity.
    + exfalso. apply Hnot. rewrite <- Heq. now apply in_map.
    + exfalso. apply Hnot. rewrite Heq. now apply in_map.
    + now apply IH.
  - exfalso. assert (Hc := find_none _ _ Hf zi (proj1 (in_rev L zi) Hin)).
    cbv beta in Hc. rewrite String.eqb_refl in Hc. discriminate Hc.
Qed.

Lemma open_member_unique L zi :
  NoDup (map filename L) -> In zi L ->
  open_member L (filename zi) = if readable zi then Some (data zi) else None.
Proof. intros Hnd Hin. unfold open_member. now rewrite (find_unique_name L zi Hnd Hin). Qed.


Lemma zip_loop_In L mac dirs M zi b :
  In (zi, b) (fst (zip_loop L mac dirs M)) ->
  In zi M /\ (dirs && is_dir zi) = false /\
  (mac && is_macos_resource_fork_file (filename zi)) = false /\
  open_member L (filename zi) = Some b.
Proof.
  induction M as [|m M IH]; cbn [zip_loop fst]; [intros []|].
  destruct (open_member L (filename m)) as [f|] eqn:Ho; [|intros []].
  destruct (zip_loop L mac dirs M) as [ys r]. cbn [fst] in IH.
  destruct (dirs && is_dir m) eqn:D;
    [|destruct (mac && is_macos_resource_fork_file (filename m)) eqn:Mc]; cbn [fst];
    try (intros H; destruct (IH H) as [H1 H2]; split; [now right|exact H2]).
  intros [E|H].
  - injection E as <- <-. split; [now left|]. rewrite D, Mc. auto.
  - destruct (IH H) as [H1 H2]. split; [now right|exact H2].
Qed.


Lemma zip_loop_unique L M :
  NoDup (map filename L) -> (forall m, In m M -> In m L) ->
  (forallb readable M = true -> zip_loop L false false M = (map (fun zi => (zi, data zi)) M, false)) /\
  (forall A z B, M = (A ++ z :: B)%list -> forallb readable A = true -> readable z = false ->
     zip_loop L false false M = (map (fun zi => (zi, data zi)) A, true)).
Proof.
  intros Hnd. induction M as [|m M IH]; intros HM.
  - split; [reflexivity|]. intros A z B E. destruct A; discriminate E.
  - assert (Ho := open_member_unique L m Hnd (HM m (or_introl eq_refl))).
    destruct (IH (fun x Hx => HM x (or_intror Hx))) as [IH1 IH2]. split.
    + cbn [forallb]. intros Hr. apply andb_true_iff in Hr as [Hm Hr].
      cbn [zip_loop]. rewrite Ho, Hm, (IH1 Hr). reflexivity.
    + intros A z B E HA Hz. destruct A as [|a A]; cbn [app] in E; injection E as -> E.
      * cbn [zip_loop]. rewrite Ho, Hz. reflexivity.
      * subst. cbn [forallb] in HA. apply andb_true_iff in HA as [Ha HA].
        cbn [zip_loop]. rewrite Ho, Ha, (IH2 A z B eq_refl HA Hz). reflexivity.
Qed.


(** With both filters on, [load_files_from_zip] yields only members of the
    archive that are neither directories nor macOS resource forks, each with
    the bytes [open] gives for its name. *)
Theorem zip_filters_hold L zi b :
  In (zi, b) (fst (load_files_from_zip L true true)) ->
  In zi L /\ is_dir zi = false /\ is_macos_resource_fork_file (filename zi) = false /\
  open_member L (filename zi) = Some b.
Proof. intros H. exact (zip_loop_In L true true L zi b H). Qed.

(** With both filters off and distinct member names, when every member can
    be opened, every member is yielded, in archive order, with its own bytes,
    and the generator ends normally; otherwise it yields the members before
    the first one that cannot be opened and then raises. *)
Theorem zip_unique_names_all L :
  NoDup (map filename L) ->
  (forallb readable L = true ->
   load_files_from_zip L false false = (map (fun zi => (zi, data zi)) L, false)) /\
  (forall A z B, L = (A ++ z :: B)%list -> forallb readable A = true -> readable z = false ->
   load_files_from_zip L false false = (map (fun zi => (zi, data zi)) A, true)).
Proof. intros Hnd. apply zip_loop_unique; auto. Qed.


Lemma zip_filters_hold_witness :
  In (mkInfo "a.txt" [Byte.x01] 0 8 true, [Byte.x01])
     (fst (load_files_from_zip [mkInfo "d/" [] 0 0 true; mkInfo "__MACOSX/._a.txt" [] 0 8 true;
                                mkInfo "a.txt" [Byte.x01] 0 8 true] true true)) /\
  In (mkInfo "a.txt" [Byte.x01] 0 8 true)
     [mkInfo "d/" [] 0 0 true; mkInfo "__MACOSX/._a.txt" [] 0 8 true; mkInfo "a.txt" [Byte.x01] 0 8 true] /\
  is_dir (mkInfo "a.txt" [Byte.x01] 0 8 true) = false /\
  is_macos_resource_fork_file "a.txt" = false /\
  open_member [mkInfo "d/" [] 0 0 true; mkInfo "__MACOSX/._a.txt" [] 0 8 true;
               mkInfo "a.txt" [Byte.x01] 0 8 true] "a.txt" = Some [Byte.x01].
Proof.
  assert (H : In (mkInfo "a.txt" [Byte.x01] 0 8 true, [Byte.x01])
     (fst (load_files_from_zip [mkInfo "d/" [] 0 0 true; mkInfo "__MACOSX/._a.txt" [] 0 8 true;
                                mkInfo "a.txt" [Byte.x01] 0 8 true] true true)))
    by (vm_compute; left; reflexivity).
  split; [exact H|]. exact (zip_filters_hold _ _ _ H).
Defined.

Lemma zip_unique_names_all_witness :
  NoDup (map filename [mkInfo "a" [Byte.x01] 0 8 true; mkInfo "b" [Byte.x02] 1 8 true;
                       mkInfo "c/" [] 0 0 true]) /\
  load_files_from_zip [mkInfo "a" [Byte.x01] 0 8 true; mkInfo "b" [Byte.x02] 1 8 true;
                       mkInfo "c/" [] 0 0 true] false false
  = (map (fun zi => (zi, data zi)) [mkInfo "a" [Byte.x01] 0 8 true], true).
Proof.
  assert (H : NoDup (map filename [mkInfo "a" [Byte.x01] 0 8 true; mkInfo "b" [Byte.x02] 1 8 true;
                                   mkInfo "c/" [] 0 0 true])).
  { cbn [map filename]. constructor; [intros [E|[E|[]]]; discriminate E|].
    constructor; [intros [E|[]]; discriminate E|]. constructor; [intros []|constructor]. }
  split; [exact H|].
  exact (proj2 (zip_unique_names_all _ H) [mkInfo "a" [Byte.x01] 0 8 true]
           (mkInfo "b" [Byte.x02] 1 8 true) [mkInfo "c/" [] 0 0 true] eq_refl eq_refl eq_refl).
Defined.


End ZipFacts.

Module MetaFacts.
Import Py Crawl CrawlFacts Meta.

Lemma loop_value k v rest acc :
  parse_loop ((k, v) :: rest) acc =
  match value_text v with
  | Some s => parse_loop rest (acc ++ [(k ++ ": " ++ s)%string])%list
  | None => None
  end.
Proof. destruct v as [s|l|]; [reflexivity| |reflexivity]. simpl. destruct (all_str l); reflexivity. Qed.

Lemma loop_some md acc lines :
  parse_loop md acc = Some lines <->
  exists r, lines = (acc ++ r)%list /\
    Forall2 (fun kv line => exists s, value_text (snd kv) = Some s /\ line = (fst kv ++ ": " ++ s)%string) md r.
Proof.
  revert acc lines. induction md as [|[k v] md IH]; intros acc lines.
  - simpl. split.
    + intros [= <-]. exists []. rewrite app_nil_r. split; [reflexivity|constructor].
    + intros [r [-> F]]. inversion F. subst. now rewrite app_nil_r.
  - rewrite loop_value. destruct (value_text v) as [s|] eqn:Hv.
    + rewrite IH. split.
      * intros [r [-> F]]. exists ((k ++ ": " ++ s)%string :: r).
        split; [now rewrite <- app_assoc|]. constructor; [exists s; auto|exact F].
      * intros [r [-> F]]. inversion F as [|? y ? r' [s' [Hs' Hy]] F']; subst.
        cbn [snd fst] in Hs'. rewrite Hv in Hs'. injection Hs' as <-.
        exists r'. split; [now rewrite <- app_assoc|exact F'].
    + split; [discriminate|]. intros [r [_ F]].
      inversion F as [|? ? ? ? [s' [Hs' _]] _]. cbn [snd] in Hs'. congruence.
Qed.

Lemma loop_none md acc :
  parse_loop md acc = None <-> Exists (fun kv => value_text (snd kv) = None) md.
Proof.
  revert acc. induction md as [|[k v] md IH]; intros acc.
  - simpl. split; [discriminate|intros H; inversion H].
  - rewrite loop_value. destruct (value_text v) as [s|] eqn:Hv.
    + rewrite IH. split; [intros H; now apply Exists_cons_tl|].
      intros H. inversion H as [? ? Hh|? ? Ht]; subst; [cbn [snd] in Hh; congruence|exact Ht].
    + split; [intros _; now apply Exists_cons_hd|reflexivity].
Qed.

(** [parse_metadata] writes one line [key: text] per entry, in order, a
    list of strings joined by [", "]; it raises exactly when some value is
    neither a [str] nor a list of [str]s. *)
Theorem parse_metadata_spec md :
  (forall lines, parse_metadata md = Some lines <->
     Forall2 (fun kv line => exists s, value_text (snd kv) = Some s /\
                                       line = (fst kv ++ ": " ++ s)%string) md lines) /\
  (parse_metadata md = None <-> Exists (fun kv => value_text (snd kv) = None) md).
Proof.
  split; [|apply loop_none]. intros lines. unfold parse_metadata. rewrite loop_some.
  split; [intros [r [-> F]]; exact F|intros F; exists lines; split; [reflexivity|exact F]].
Qed.

Lemma all_str_map l : all_str (map PyStr l) = Some l.
Proof. induction l as [|a l IH]; [reflexivity|]. simpl. now rewrite IH. Qed.

Lemma step_meta E c base s s' evs :
  step E c base s = Some (s', evs) ->
  exists new, (emitted evs ++ doc_batch s' = doc_batch s ++ new)%list /\
    Forall (fun d => (is_pdf (doc_id d) = true /\ doc_metadata d = []) \/
                     exists g u, is_pdf u = false /\ doc_id d = final_url (render E g u) /\
                                 doc_metadata d = page_metadata (render E g u)) new.
Proof.
  intros H. step_cases H; cbn [doc_batch];
  match goal with
  | |- exists n, (emitted ?EV ++ ?D = _)%list /\ _ =>
      match D with
      | (_ ++ [?d])%list => exists [d]
      | [] => match EV with
              | context [EYield (_ ++ [?d])] => exists [d]
              | _ => exists []
              end
      | _ => exists []
      end
  end;
  simpl; rewrite ?app_nil_r; (split; [reflexivity|]);
  repeat (apply Forall_cons || apply Forall_nil);
  first [left; split; [assumption|reflexivity]
        | right; eexists; eexists; refine (conj _ (conj eq_refl eq_refl)); assumption].
Qed.

Lemma loop_meta E c base fuel s :
  let P d := (is_pdf (doc_id d) = true /\ doc_metadata d = []) \/
             exists g u, is_pdf u = false /\ doc_id d = final_url (render E g u) /\
                         doc_metadata d = page_metadata (render E g u) in
  Forall P (doc_batch s) -> Forall P (emitted (fst (crawl_loop E c base fuel s))).
Proof.
  intros P. induction fuel as [|f IH] in s |- *; simpl; intros Hb; [constructor|].
  destruct (step E c base s) as [[s' evs]|] eqn:Hs.
  - destruct (crawl_loop E c base f s') as [tr o] eqn:Hl. simpl.
    rewrite emitted_app, Forall_app.
    destruct (step_meta _ _ _ _ _ _ Hs) as [new [He Hn]].
    assert (F : Forall P (emitted evs ++ doc_batch s')%list)
      by (rewrite He; apply Forall_app; auto).
    apply Forall_app in F as [F1 F2]. split; [exact F1|].
    specialize (IH s' F2). rewrite Hl in IH. exact IH.
  - simpl. unfold final_flush. destruct (doc_batch s) as [|b l]; [constructor|].
    simpl. rewrite app_nil_r. exact Hb.
Qed.

(** [parse_metadata] accepts the metadata of every document a crawl yields:
    a document fetched as a PDF (its id ends in [.pdf]) gives no lines; a
    rendered page, fetched from a URL that does not end in [.pdf], gives a
    [title: ...] line with the page's title and, when the page has tag
    marker texts, a [content: ...] line joining them. *)
Theorem crawl_metadata_parses E c fuel d :
  In d (emitted (fst (load_from_state E c fuel))) ->
  (is_pdf (doc_id d) = true /\ parse_metadata (to_py_dict (doc_metadata d)) = Some []) \/
  (exists g u, is_pdf u = false /\ doc_id d = final_url (render E g u) /\
     parse_metadata (to_py_dict (doc_metadata d)) =
       Some (("title: " ++ match title (render E g u) with Some t => t | None => EmptyString end)%string
             :: match tag_texts (render E g u) with
                | [] => []
                | l => [("content: " ++ Pdf.join ", " l)%string]
                end)).
Proof.
  unfold load_from_state. destruct (to_visit_list c) as [|b0 r0]; [intros []|].
  destruct (crawl_loop E c b0 fuel (init_state c)) as [tr o] eqn:Hl. simpl. intros Hd.
  assert (F := loop_meta E c b0 fuel (init_state c) (Forall_nil _)).
  rewrite Hl in F. simpl in F. rewrite Forall_forall in F.
  destruct (F d Hd) as [[Hp Hm] | [g [u [Hu [Hi Hm]]]]]; rewrite Hm.
  - left. split; [exact Hp|reflexivity].
  - right. exists g, u. split; [exact Hu|split; [exact Hi|]]. unfold page_metadata.
    set (t := match title (render E g u) with Some t => t | None => EmptyString end).
    destruct (tag_texts (render E g u)) as [|t0 ts]; [reflexivity|].
    unfold parse_metadata, to_py_dict. cbn [map fst snd to_py parse_loop].
    change (PyStr t0 :: map PyStr ts) with (map PyStr (t0 :: ts)). rewrite all_str_map. reflexivity.
Qed.

Lemma crawl_metadata_parses_witness :
  let E := Scenarios.env_of Scenarios.two_pages Scenarios.pdf_plain in
  let c := mkConn false 16 false Scenarios.two_pages in
  let d := mkDoc "https://x.com/b" "txt" (Some "https://x.com/b") [("title", MStr "")] in
  In d (emitted (fst (load_from_state E c 5))) /\
  ((is_pdf (doc_id d) = true /\ parse_metadata (to_py_dict (doc_metadata d)) = Some []) \/
   (exists g u, is_pdf u = false /\ doc_id d = final_url (render E g u) /\
      parse_metadata (to_py_dict (doc_metadata d)) =
        Some (("title: " ++ match title (render E g u) with Some t => t | None => EmptyString end)%string
              :: match tag_texts (render E g u) with
                 | [] => []
                 | l => [("content: " ++ Pdf.join ", " l)%string]
                 end))).
Proof.
  intros E c d.
  assert (H : In d (emitted (fst (load_from_state E c 5)))) by (vm_compute; left; reflexivity).
  split; [exact H|exact (crawl_metadata_parses E c 5 d H)].
Defined.

End MetaFacts.

Module ConnectorFacts.
Import Py Crawl TextFacts.

Lemma ensure_contains x : contains "://" (_ensure_valid_url x) = true.
Proof. unfold _ensure_valid_url. destruct (contains "://" x) eqn:E; [exact E|destruct x; reflexivity]. Qed.

Lemma first_is_space_rev s : first_is_space (rev_str s) = last_is_space s.
Proof.
  induction s as [|c r IH]; [reflexivity|]. cbn [rev_str].
  destruct r as [|c' r']; [reflexivity|].
  change (last_is_space (String c (String c' r'))) with (last_is_space (String c' r')).
  rewrite <- IH. cbn [rev_str].
  destruct (rev_str r'); reflexivity.
Qed.

Lemma lstrip_id s : first_is_space s = false -> lstrip s = s.
Proof. destruct s as [|c r]; [reflexivity|]. simpl. intros H. now rewrite H. Qed.

Lemma strip_id s : first_is_space s = false -> last_is_space s = false -> strip s = s.
Proof.
  intros H1 H2. unfold strip. rewrite (lstrip_id s H1).
  rewrite lstrip_id; [apply rev_str_involutive|]. now rewrite first_is_space_rev.
Qed.

Lemma last_is_space_app a b : b <> EmptyString -> last_is_space (a ++ b) = last_is_space b.
Proof.
  intros Hb. induction a as [|c a IH]; [reflexivity|]. cbn [append].
  rewrite <- IH. destruct (a ++ b) as [|c' r] eqn:E; [|reflexivity].
  destruct a, b; try discriminate E. now destruct Hb.
Qed.

Lemma strip_ensure x : x = strip x -> x <> EmptyString ->
  strip (_ensure_valid_url x) = _ensure_valid_url x /\ _ensure_valid_url x <> EmptyString.
Proof.
  intros Hx Hne. destruct (strip_ends x) as [F L]. rewrite <- Hx in F, L.
  unfold _ensure_valid_url. destruct (contains "://" x).
  - split; [now symmetry|exact Hne].
  - split; [|discriminate]. apply strip_id; [reflexivity|].
    rewrite last_is_space_app; [exact L|exact Hne].
Qed.

Lemma ensure_idem x : _ensure_valid_url (_ensure_valid_url x) = _ensure_valid_url x.
Proof. unfold _ensure_valid_url at 1. now rewrite ensure_contains. Qed.

Lemma strip_idem s : strip (strip s) = strip s.
Proof. destruct (strip_ends s) as [F L]. now apply strip_id. Qed.

(** Every URL [_read_urls_file] returns has a scheme separator [://]. *)
Theorem read_urls_have_scheme lines :
  Forall (fun u => contains "://" u = true) (_read_urls_file lines).
Proof.
  unfold _read_urls_file. apply Forall_forall. intros u Hu.
  apply in_map_iff in Hu as [l [<- _]]. apply ensure_contains.
Qed.

(** [_read_urls_file] is idempotent: reading its own output back (one URL
    per line) gives the same list. *)
Theorem read_urls_idempotent lines :
  _read_urls_file (_read_urls_file lines) = _read_urls_file lines.
Proof.
  unfold _read_urls_file. induction lines as [|l lines IH]; [reflexivity|].
  cbn [filter]. destruct (negb (String.eqb (strip l) EmptyString)) eqn:E; [|exact IH].
  cbn [map filter].
  assert (Hne : strip l <> EmptyString)
    by (intros H; rewrite H in E; discriminate E).
  destruct (strip_ensure (strip l) (eq_sym (strip_idem l)) Hne) as [S1 S2].
  rewrite S1. apply String.eqb_neq in S2. rewrite S2. cbn [negb map].
  rewrite S1, ensure_idem. f_equal. exact IH.
Qed.

End ConnectorFacts.

Module LinkSetFacts.
Import Py Links.

Lemma no_colon_c0 s :
  all_chars (fun c => negb (Ascii.eqb c ":")) s = true ->
  all_chars (fun c => negb (Ascii.eqb c ":")) (lstrip_c0 s) = true.
Proof.
  induction s as [|c r IH]; [reflexivity|]. simpl. intros H.
  apply andb_true_iff in H as [H1 H2].
  destruct (Nat.leb (nat_of_ascii c) 32); [apply IH; exact H2|]. simpl. now rewrite H1, H2.
Qed.

Lemma no_colon_unsafe s :
  all_chars (fun c => negb (Ascii.eqb c ":")) s = true ->
  all_chars (fun c => negb (Ascii.eqb c ":")) (remove_unsafe s) = true.
Proof.
  induction s as [|c r IH]; [reflexivity|]. simpl. intros H.
  apply andb_true_iff in H as [H1 H2].
  destruct (_ || _ || _); [apply IH; exact H2|]. simpl. rewrite H1. now apply IH.
Qed.

Lemma no_colon_split s :
  all_chars (fun c => negb (Ascii.eqb c ":")) s = true -> split_colon s = None.
Proof.
  induction s as [|c r IH]; [reflexivity|]. simpl. intros H.
  apply andb_true_iff in H as [H1 H2]. apply negb_true_iff in H1. rewrite H1, IH; auto.
Qed.

(** A string without [:] has no scheme, so [is_valid_url] rejects it (and
    [get_internal_links] sends it through [urljoin]). *)
Theorem no_colon_not_valid url :
  all_chars (fun c => negb (Ascii.eqb c ":")) url = true -> is_valid_url url = false.
Proof.
  intros H. unfold is_valid_url, urlsplit. cbv zeta.
  pose proof (no_colon_split _ (no_colon_unsafe _ (no_colon_c0 _ H))) as Hs.
  remember (remove_unsafe (lstrip_c0 url)) as u eqn:Eu. clear Eu.
  destruct u as [|c0 r]; [reflexivity|]. rewrite Hs.
  repeat (cbv beta iota;
          match goal with
          | |- context [match ?x with _ => _ end] =>
              first [is_var x | match type of x with bool => idtac end]; destruct x
          end);
  reflexivity.
Qed.

Lemma no_colon_not_valid_witness :
  all_chars (fun c => negb (Ascii.eqb c ":")) "//a.com/x" = true /\ is_valid_url "//a.com/x" = false.
Proof. split; [reflexivity|apply no_colon_not_valid; reflexivity]. Defined.

End LinkSetFacts.

Module PdfReadFacts.
Import Py Pdf Shapes.

(** [read_pdf_file] raises only when [PdfReader] does; otherwise it returns
    the pages' texts joined by newlines when extraction works and the file
    is not encrypted or is opened by the password given (the empty password
    when none is), and the empty string in every other case. *)
Theorem read_pdf_file_outcome PR file name pdf_pass :
  read_pdf_file PR file name pdf_pass =
  option_map (fun d => if pdf_readable d pdf_pass then join NL (page_texts d) else EmptyString)
    (PR file).
Proof.
  unfold read_pdf_file, pdf_readable. destruct (PR file) as [d|]; [|reflexivity].
  cbn [option_map]. unfold open_reader, extract_pages, decrypt. cbn [rdoc decrypted].
  destruct (is_encrypted d), pdf_pass as [p|]; cbn;
    try (destruct (decrypt_raises d p)); cbn;
    try (destruct (verify d p)); try (destruct (verify d EmptyString)); cbn;
    destruct (extract_fails d); reflexivity.
Qed.

End PdfReadFacts.

Module SessionFacts.
Import Py Crawl CrawlFacts Shapes.

Lemma fail_ends_with_stop E c base s s' evs :
  step E c base s = Some (s', evs) -> evs <> [] -> restart_playwright s' = true ->
  doc_batch s' <> [] -> exists pre, evs = (pre ++ [EStop (playwright s')])%list.
Proof.
  intros H. step_cases H; cbn [restart_playwright doc_batch playwright];
  intros H1 H2 H3; try discriminate H2; try (now destruct H1); try (now destruct H3);
  match goal with |- exists p, ?L = _ => exists (removelast L) end; reflexivity.
Qed.

(** When the last iteration of a crawl fails with documents buffered, the
    [except] handler stops the session and the final flush stops it again
    before yielding the buffer. *)
Theorem failed_last_page_double_stop E c base s s' evs fuel :
  step E c base s = Some (s', evs) -> evs <> [] -> restart_playwright s' = true ->
  doc_batch s' <> [] -> to_visit s' = [] ->
  exists pre, crawl_loop E c base (S (S fuel)) s =
    ((pre ++ [EStop (playwright s'); EStop (playwright s'); EYield (doc_batch s')])%list, Done).
Proof.
  intros Hs Hne Hr Hb Ht.
  destruct (fail_ends_with_stop _ _ _ _ _ _ Hs Hne Hr Hb) as [pre Hpre].
  exists pre. cbn [crawl_loop]. rewrite Hs.
  assert (Hn : step E c base s' = None) by (unfold step; rewrite Ht; reflexivity).
  rewrite Hn. unfold final_flush. destruct (doc_batch s') as [|d ds]; [now destruct Hb|].
  rewrite Hpre, <- app_assoc. reflexivity.
Qed.

Lemma failed_last_page_double_stop_witness :
  let E := mkEnv (fun _ => Some []) (fun _ => Some Scenarios.pdf_plain)
             (fun _ u => mkPage u [] "txt" None [] FailGoto)
             (fun _ _ => None) (fun _ => None) (fun _ => None) in
  let c := mkConn false 16 false ["https://x.com/b"; "https://x.com/a.pdf"] in
  let d := mkDoc "https://x.com/a.pdf" "t" (Some "https://x.com/a.pdf") [] in
  let s := mkSt ["https://x.com/a.pdf"] ["https://x.com/b"] [d] false 0 1 in
  let s' := mkSt ["https://x.com/b"; "https://x.com/a.pdf"] [] [d] true 0 1 in
  let evs := [EGoto "https://x.com/b" 0; EStop 0] in
  step E c "https://x.com/b" s = Some (s', evs) /\ evs <> [] /\ restart_playwright s' = true /\
  doc_batch s' <> [] /\ to_visit s' = [] /\
  exists pre, crawl_loop E c "https://x.com/b" 2 s =
    ((pre ++ [EStop 0; EStop 0; EYield [d]])%list, Done).
Proof.
  intros E c d s s' evs.
  assert (H : step E c "https://x.com/b" s = Some (s', evs)) by (vm_compute; reflexivity).
  assert (H1 : evs <> []) by discriminate.
  assert (H2 : doc_batch s' <> []) by discriminate.
  split; [exact H|split; [exact H1|split; [reflexivity|split; [exact H2|split; [reflexivity|]]]]].
  exact (failed_last_page_double_stop E c "https://x.com/b" s s' evs 0 H H1 eq_refl H2 eq_refl).
Defined.

End SessionFacts.

Module BatchFacts.
Import Py Crawl CrawlFacts.

Lemma Forall_frontier (P : string -> Prop) f rest L :
  Forall P rest -> Forall P L -> Forall P (rest ++ filter f L)%list.
Proof.
  intros H1 H2. apply Forall_app. split; [exact H1|].
  apply Forall_forall. intros x Hx. apply filter_In in Hx as [Hx _].
  rewrite Forall_forall in H2. now apply H2.
Qed.

Lemma step_batches E c base s s' evs :
  (forall g u, fail_at (render E g u) <> FailClose) ->
  (forall b g u links,
     Links.get_internal_links (urljoin_resolve E) b (final_url (render E g u))
       (anchors (render E g u)) true = Some links ->
     Forall (fun l => is_pdf l = false) links) ->
  step E c base s = Some (s', evs) ->
  Forall (fun u => is_pdf u = false) (to_visit s) ->
  length (doc_batch s) < Z.to_nat (Z.max 1 (batch_size c)) ->
  Forall (fun u => is_pdf u = false) (to_visit s') /\
  length (doc_batch s') < Z.to_nat (Z.max 1 (batch_size c)) /\
  Forall (fun b => length b = Z.to_nat (Z.max 1 (batch_size c))) (batches evs).
Proof.
  intros HC HL H Hv Hb.
  assert (Hp : exists cur rest, pop (to_visit s) = Some (cur, rest)).
  { unfold step in H. destruct (pop (to_visit s)) as [[cur rest]|]; [eauto|discriminate H]. }
  destruct Hp as [cur [rest Hp]].
  pose proof (pop_app _ _ _ Hp) as Happ. rewrite Happ in Hv.
  apply Forall_app in Hv as [Hr Hc]. inversion Hc as [|? ? Hcur _]; subst.
  unfold step in H. rewrite Hp in H.
  step_cases H; cbn [to_visit doc_batch batches].
  all: try congruence.
  all: try (exfalso; eapply HC; eassumption).
  all: repeat match goal with
       | H : (if recursive ?cc then _ else _) = Some _ |- _ =>
           destruct (recursive cc); [apply HL in H | injection H as <-]
       | H : (_ <=? _)%Z = true |- _ => apply Z.leb_le in H
       | H : (_ <=? _)%Z = false |- _ => apply Z.leb_gt in H
       end.
  all: cbn [batches app]; rewrite ?length_app in *; cbn [length] in *.
  all: repeat split;
       first [ apply Forall_frontier; [exact Hr|first [assumption|constructor]]
             | exact Hr | lia
             | repeat (apply Forall_cons || apply Forall_nil);
               cbv beta; rewrite ?length_app; cbn [length]; lia ].
Qed.

Lemma batches_app l1 l2 : batches (l1 ++ l2) = (batches l1 ++ batches l2)%list.
Proof.
  induction l1 as [|e l1 IH]; [reflexivity|].
  destruct e; simpl; rewrite ?IH; reflexivity.
Qed.

Lemma loop_batches E c base fuel s :
  (forall g u, fail_at (render E g u) <> FailClose) ->
  (forall b g u links,
     Links.get_internal_links (urljoin_resolve E) b (final_url (render E g u))
       (anchors (render E g u)) true = Some links ->
     Forall (fun l => is_pdf l = false) links) ->
  Forall (fun u => is_pdf u = false) (to_visit s) ->
  length (doc_batch s) < Z.to_nat (Z.max 1 (batch_size c)) ->
  exists full rest,
    batches (fst (crawl_loop E c base fuel s)) = (full ++ rest)%list /\
    Forall (fun b => length b = Z.to_nat (Z.max 1 (batch_size c))) full /\
    (rest = [] \/ exists b, rest = [b] /\ 0 < length b < Z.to_nat (Z.max 1 (batch_size c))).
Proof.
  intros HC HL. induction fuel as [|f IH] in s |- *; intros Hv Hb; simpl.
  - exists [], []. split; [reflexivity|split; [constructor|now left]].
  - destruct (step E c base s) as [[s' evs]|] eqn:Hs.
    + destruct (step_batches _ _ _ _ _ _ HC HL Hs Hv Hb) as [Hv' [Hb' Hf]].
      destruct (IH s' Hv' Hb') as [full [rest [E1 [F1 R1]]]].
      destruct (crawl_loop E c base f s') as [tr o]. simpl in E1 |- *.
      exists (batches evs ++ full)%list, rest.
      rewrite batches_app, E1, app_assoc. split; [reflexivity|].
      split; [apply Forall_app; split; assumption|exact R1].
    + simpl. unfold final_flush. destruct (doc_batch s) as [|d ds] eqn:Hd.
      * exists [], []. split; [reflexivity|split; [constructor|now left]].
      * exists [], [d :: ds]. split; [reflexivity|split; [constructor|right]].
        exists (d :: ds). split; [reflexivity|]. simpl in Hb |- *. lia.
Qed.

(** A crawl that never meets a PDF and whose pages do not raise in
    [page.close()] yields batches of exactly [batch_size] documents (one
    document when [batch_size] is below 1), except a last, smaller and
    non-empty one flushed at the end. *)
Theorem html_crawl_batches E c fuel :
  (forall g u, fail_at (render E g u) <> FailClose) ->
  (forall b g u links,
     Links.get_internal_links (urljoin_resolve E) b (final_url (render E g u))
       (anchors (render E g u)) true = Some links ->
     Forall (fun l => is_pdf l = false) links) ->
  Forall (fun u => is_pdf u = false) (to_visit_list c) ->
  exists full rest,
    batches (fst (load_from_state E c fuel)) = (full ++ rest)%list /\
    Forall (fun b => length b = Z.to_nat (Z.max 1 (batch_size c))) full /\
    (rest = [] \/ exists b, rest = [b] /\ 0 < length b < Z.to_nat (Z.max 1 (batch_size c))).
Proof.
  intros HC HL Hv. unfold load_from_state.
  destruct (to_visit_list c) as [|b0 r0] eqn:Hc.
  - exists [], []. split; [reflexivity|split; [constructor|now left]].
  - assert (Hv0 : Forall (fun u => is_pdf u = false) (to_visit (init_state c)))
      by (unfold init_state; cbn [to_visit]; rewrite Hc; exact Hv).
    assert (Hb0 : length (doc_batch (init_state c)) < Z.to_nat (Z.max 1 (batch_size c)))
      by (cbn; lia).
    destruct (loop_batches E c b0 fuel (init_state c) HC HL Hv0 Hb0) as [full [rest H]].
    destruct (crawl_loop E c b0 fuel (init_state c)) as [tr o]. simpl in H |- *.
    exists full, rest. exact H.
Qed.

Lemma html_crawl_batches_witness :
  let E := Scenarios.env_of Scenarios.two_pages Scenarios.pdf_plain in
  let c := mkConn false 1 false Scenarios.two_pages in
  (forall g u, fail_at (render E g u) <> FailClose) /\
  (forall b g u links,
     Links.get_internal_links (urljoin_resolve E) b (final_url (render E g u))
       (anchors (render E g u)) true = Some links ->
     Forall (fun l => is_pdf l = false) links) /\
  Forall (fun u => is_pdf u = false) (to_visit_list c) /\
  exists full rest,
    batches (fst (load_from_state E c 5)) = (full ++ rest)%list /\
    Forall (fun b => length b = Z.to_nat (Z.max 1 (batch_size c))) full /\
    (rest = [] \/ exists b, rest = [b] /\ 0 < length b < Z.to_nat (Z.max 1 (batch_size c))).
Proof.
  intros E c.
  assert (HC : forall g u, fail_at (render E g u) <> FailClose) by (intros g u; discriminate).
  assert (HL : forall b g u links,
     Links.get_internal_links (urljoin_resolve E) b (final_url (render E g u))
       (anchors (render E g u)) true = Some links ->
     Forall (fun l => is_pdf l = false) links)
    by (intros b g u links H; injection H as <-; constructor).
  assert (Hv : Forall (fun u => is_pdf u = false) (to_visit_list c)) by repeat constructor.
  split; [exact HC|split; [exact HL|split; [exact Hv|]]].
  exact (html_crawl_batches E c 5 HC HL Hv).
Defined.

End BatchFacts.

Module StreamlitFacts.
Import Streamlit.

(** One entry: when the entry or the secret is not ASCII, the callback
    raises; otherwise [check_password] lets the user in exactly when the
    entry is the secret and shows the error otherwise, a correct entry being
    removed from the session state and a wrong one kept in it. *)
Theorem check_after_entry secret p s :
  (is_ascii p && is_ascii secret = false -> enter secret p s = None) /\
  (is_ascii p && is_ascii secret = true ->
   exists s', enter secret p s = Some s' /\
     check_password s' = (String.eqb p secret, negb (String.eqb p secret)) /\
     password s' = (if String.eqb p secret then None else Some p)).
Proof.
  unfold enter, password_entered, compare_digest. cbn [password].
  destruct (is_ascii p && is_ascii secret); split; intros H; try discriminate H;
    [|reflexivity].
  destruct (String.eqb p secret); eexists; (split; [reflexivity|split; reflexivity]).
Qed.

Lemma session_open secret s entries :
  fst (check_password s) = true -> session secret s entries = Some s.
Proof.
  intros H. induction entries as [|p r IH]; [reflexivity|]. cbn [session]. now rewrite H.
Qed.

Lemma ascii_eqb p secret :
  is_ascii secret = true -> String.eqb p secret = true -> is_ascii p = true.
Proof. intros H E. apply String.eqb_eq in E. now subst. Qed.

(** With an ASCII secret: over any sequence of ASCII entries the gate
    never raises; it is open at the end exactly when it was open at the
    start or some entry was the secret, and a gate opened by an entry keeps
    no password.  From a closed gate, the session raises exactly when an
    entry that is not ASCII is typed before any correct one. *)
Theorem password_session secret s0 entries :
  is_ascii secret = true ->
  (forallb is_ascii entries = true ->
   exists s, session secret s0 entries = Some s /\
     fst (check_password s) =
       fst (check_password s0) || existsb (fun p => String.eqb p secret) entries /\
     (fst (check_password s0) = false -> existsb (fun p => String.eqb p secret) entries = true ->
      password s = None)) /\
  (fst (check_password s0) = false ->
   (session secret s0 entries = None <->
    exists pre p post, entries = (pre ++ p :: post)%list /\
      forallb (fun q => is_ascii q && negb (String.eqb q secret)) pre = true /\
      is_ascii p = false)).
Proof.
  intros Hs. revert s0. induction entries as [|p r IH]; intros s0; split.
  - intros _. exists s0. split; [reflexivity|]. rewrite orb_false_r. split; [reflexivity|].
    intros _ H. discriminate H.
  - intros _. split; [discriminate|]. intros [pre [p [post [E _]]]]. destruct pre; discriminate E.
  - cbn [forallb]. intros Ha. apply andb_true_iff in Ha as [Hp Ha].
    cbn [session existsb]. destruct (fst (check_password s0)) eqn:Hc.
    + destruct (proj1 (IH s0) Ha) as [s [E1 [E2 _]]]. exists s. split; [exact E1|].
      rewrite E2, Hc. split; [reflexivity|]. intros H. discriminate H.
    + unfold enter, password_entered, compare_digest. cbn [password]. rewrite Hp, Hs.
      cbn [andb]. destruct (String.eqb p secret) eqn:Hq.
      * exists (mkSession None (Some true)). split; [apply session_open; reflexivity|].
        cbn. split; [reflexivity|]. intros _ _. reflexivity.
      * destruct (proj1 (IH (mkSession (Some p) (Some false))) Ha) as [s [E1 [E2 E3]]].
        exists s. split; [exact E1|]. rewrite E2. cbn. split; [reflexivity|].
        intros _ H. apply E3; [reflexivity|exact H].
  - intros Hc. cbn [session]. rewrite Hc.
    unfold enter, password_entered, compare_digest. cbn [password]. rewrite Hs, andb_true_r.
    destruct (is_ascii p) eqn:Hp; cbv beta iota.
    + destruct (String.eqb p secret) eqn:Hq; cbv beta iota.
      * rewrite session_open by reflexivity. split; [intros H; discriminate H|].
        intros [pre [q [post [E [Hpre Hq']]]]]. destruct pre as [|a pre]; injection E as -> E.
        -- congruence.
        -- cbn [forallb] in Hpre. rewrite Hp, Hq in Hpre. discriminate Hpre.
      * rewrite (proj2 (IH (mkSession (Some p) (Some false))) eq_refl). split.
        -- intros [pre [q [post [E [Hpre Hq']]]]]. exists (p :: pre), q, post.
           split; [now rewrite E|]. split; [|exact Hq']. cbn [forallb]. now rewrite Hp, Hq, Hpre.
        -- intros [pre [q [post [E [Hpre Hq']]]]]. destruct pre as [|a pre]; injection E as -> E.
           ++ congruence.
           ++ exists pre, q, post. cbn [forallb] in Hpre. apply andb_true_iff in Hpre as [_ Hpre].
              auto.
    + split; [intros _|intros _; reflexivity]. exists [], p, r. auto.
Qed.

Lemma check_after_entry_witness :
  is_ascii "pw" && is_ascii "pw" = true /\
  exists s', enter "pw" "pw" (mkSession None None) = Some s' /\
    check_password s' = (String.eqb "pw" "pw", negb (String.eqb "pw" "pw")) /\
    password s' = (if String.eqb "pw" "pw" then None else Some "pw").
Proof.
  split; [reflexivity|]. exact (proj2 (check_after_entry "pw" "pw" (mkSession None None)) eq_refl).
Defined.

Lemma password_session_witness :
  is_ascii "pw" = true /\
  session "pw" (mkSession None None) ["no"; String (Ascii.ascii_of_nat 195) "a"; "pw"] = None.
Proof.
  split; [reflexivity|].
  apply (proj2 (proj2 (password_session "pw" (mkSession None None)
                         ["no"; String (Ascii.ascii_of_nat 195) "a"; "pw"] eq_refl) eq_refl)).
  exists ["no"], (String (Ascii.ascii_of_nat 195) "a"), ["pw"]. split; [reflexivity|].
  split; reflexivity.
Defined.

End StreamlitFacts.
